(** * Universal document classifier and extractor: a model of [app.py]

    The script provisions one remote extraction agent per registered
    schema, accepts one uploaded file, asks a remote classifier for the
    document type, routes the file to the agent named
    ["{type}-extractor"], renders the extracted fields as cards and
    removes the temporary file.

    The remote services and Python's built-in [str] are the environment
    of the script: they are taken as parameters ([Cloud], [Python]).
    Everything the script itself does is written out: the order of the
    calls, the [try]/[except] of the provisioning loop, the branches of
    the upload handler and the string operations of the card renderer. *)

From Stdlib Require Import Floats Ascii String DecimalString.
From stdpp Require Import gmap strings list fin_maps.

Set Warnings "-register-all,-inexact-float".
Local Open Scope string_scope.
Local Open Scope list_scope.

(** ** Python strings

    A string is the sequence of its UTF-8 bytes. Replacing one ASCII
    character by another, joining and concatenating act on the bytes as
    Python acts on the text. Title case is computed here for ASCII text
    only ([ascii_title]); for text with a character outside ASCII the
    script's [s.title()] is left to Python (see [str_title] below). *)

Module Str.

Definition is_lower (c : ascii) : bool :=
  (97 <=? nat_of_ascii c)%nat && (nat_of_ascii c <=? 122)%nat.

Definition is_upper (c : ascii) : bool :=
  (65 <=? nat_of_ascii c)%nat && (nat_of_ascii c <=? 90)%nat.

Definition is_alpha (c : ascii) : bool := is_lower c || is_upper c.

Definition to_upper (c : ascii) : ascii :=
  if is_lower c then ascii_of_nat (nat_of_ascii c - 32) else c.

Definition to_lower (c : ascii) : ascii :=
  if is_upper c then ascii_of_nat (nat_of_ascii c + 32) else c.

(** [s.replace(old, new)] for one-character [old] and [new], the only
    form the script uses. *)
Fixpoint replace (old new : ascii) (s : string) : string :=
  match s with
  | EmptyString => EmptyString
  | String c r =>
      String (if Ascii.eqb c old then new else c) (replace old new r)
  end.

(** [s.isascii()]: every byte is below 128. *)
Fixpoint is_ascii (s : string) : bool :=
  match s with
  | EmptyString => true
  | String c r => (nat_of_ascii c <? 128)%nat && is_ascii r
  end.

(** [s.title()] when [s] is ASCII text: one pass over the characters
    carrying the flag [previous_is_cased]; a lowercase letter that
    follows an uncased character is raised, an uppercase letter that
    follows a cased one is lowered, an uncased character is kept and
    clears the flag. *)
Fixpoint title_from (previous_is_cased : bool) (s : string) : string :=
  match s with
  | EmptyString => EmptyString
  | String c r =>
      if is_lower c then
        String (if previous_is_cased then c else to_upper c)
               (title_from true r)
      else if is_upper c then
        String (if previous_is_cased then to_lower c else c)
               (title_from true r)
      else String c (title_from false r)
  end.

Definition ascii_title (s : string) : string := title_from false s.

(** [sep.join(items)]: the first item, then the separator before each
    later item, accumulated from left to right. *)
Fixpoint join_onto (acc sep : string) (items : list string) : string :=
  match items with
  | [] => acc
  | x :: r => join_onto (acc +:+ sep +:+ x) sep r
  end.

Definition join (sep : string) (items : list string) : string :=
  match items with
  | [] => EmptyString
  | x :: r => join_onto x sep r
  end.

End Str.

(** ** Values of an extraction result *)

(** The field values the remote extractor returns are JSON-like. *)
Inductive Value : Type :=
  | VNone
  | VBool (b : bool)
  | VInt (n : Z)
  | VFloat (x : float)
  | VStr (s : string)
  | VList (items : list Value)
  | VDict (entries : list (string * Value)).

(** A Python [dict] read in insertion order. *)
Abbreviation Dict := (list (string * Value)).

(** ** Python's built-ins

    What the script asks of Python beyond what is computed here:
    [str_builtin] is [str] on floats, lists and dicts; [title_builtin] is
    [str.title] on text that has a character outside ASCII, where title
    case follows the Unicode tables. *)
Record Python := mkPython {
  str_builtin : Value -> string;
  title_builtin : string -> string
}.

(** ** Schema registry *)

Inductive FieldType := TStr | TFloat | TListStr | TListDict.

Record Schema := mkSchema {
  schema_name : string;
  schema_fields : list (string * FieldType)
}.

Definition Invoice : Schema :=
  mkSchema "Invoice"
    [("invoice_number", TStr); ("date", TStr); ("total", TFloat);
     ("items", TListDict)].

Definition Receipt : Schema :=
  mkSchema "Receipt"
    [("merchant", TStr); ("date", TStr); ("total", TFloat);
     ("items", TListDict)].

Definition Resume : Schema :=
  mkSchema "Resume"
    [("name", TStr); ("email", TStr); ("phone", TStr);
     ("skills", TListStr); ("experience", TListStr)].

Definition AadhaarCard : Schema :=
  mkSchema "AadhaarCard"
    [("name", TStr); ("aadhaar_number", TStr); ("dob", TStr);
     ("gender", TStr); ("address", TStr)].

Definition PANCard : Schema :=
  mkSchema "PANCard"
    [("name", TStr); ("pan_number", TStr); ("dob", TStr);
     ("father_name", TStr)].

Definition BankStatement : Schema :=
  mkSchema "BankStatement"
    [("account_holder", TStr); ("account_number", TStr);
     ("bank_name", TStr); ("transactions", TListDict)].

Definition CoverLetter : Schema :=
  mkSchema "CoverLetter"
    [("candidate_name", TStr); ("email", TStr); ("company_name", TStr);
     ("position", TStr); ("summary", TStr)].

Definition LabReport : Schema :=
  mkSchema "LabReport"
    [("patient_name", TStr); ("test_name", TStr); ("result", TStr);
     ("normal_range", TStr); ("date", TStr)].

Definition Prescription : Schema :=
  mkSchema "Prescription"
    [("doctor_name", TStr); ("patient_name", TStr);
     ("medicines", TListStr); ("dosage", TStr); ("date", TStr)].

Definition MedicalRecord : Schema :=
  mkSchema "MedicalRecord"
    [("patient_name", TStr); ("diagnosis", TStr); ("treatment", TStr);
     ("doctor_name", TStr); ("date", TStr)].

(** The table the provisioning loop iterates, in the order it is
    written. *)
Definition agent_definitions : list (string * Schema) :=
  [ ("invoice-extractor", Invoice);
    ("receipt-extractor", Receipt);
    ("resume-extractor", Resume);
    ("aadhaar-extractor", AadhaarCard);
    ("pan-extractor", PANCard);
    ("bank-extractor", BankStatement);
    ("coverletter-extractor", CoverLetter);
    ("labreport-extractor", LabReport);
    ("prescription-extractor", Prescription);
    ("medicalrecord-extractor", MedicalRecord) ].

(** ** Exceptions and outcomes *)

Inductive exn :=
  | IndexError
  | FileNotFoundError (path : string)
  | RemoteError (detail : string).

Inductive Result (A : Type) :=
  | Ok (a : A)
  | Raise (e : exn).
Arguments Ok {A} a.
Arguments Raise {A} e.

(** ** Messages of the remote API *)

Record ClassifierRule := mkRule {
  rule_type : string;
  rule_description : string
}.

Inductive ParserLanguages := EN.

Record ClassifyParsingConfiguration := mkParsing {
  lang : ParserLanguages;
  max_pages : nat
}.

Record ClassificationResult := mkClassification {
  cr_type : string;
  cr_confidence : float;
  cr_reasoning : string
}.

(** One entry of [results.items]; [result] is [None] when the service
    could not classify the file. *)
Record FileClassification := mkItem {
  result : option ClassificationResult
}.

Record ClassifyJobResults := mkResults {
  items : list FileClassification
}.

Record ExtractRun := mkRun {
  data : Dict
}.

Abbreviation Bytes := (list Byte.byte).

(** The local files, by path. *)
Abbreviation Files := (gmap string Bytes).

(** ** The remote services

    [remote] is the state of the cloud account, [handle] the type of the
    agent objects the client library returns. Each call maps the state
    before it to an outcome and the state after it; the calls that read
    the uploaded document see the local files but cannot change them. *)
Record Cloud := mkCloud {
  remote : Type;
  handle : Type;
  get_agent : string -> remote -> Result handle * remote;
  create_agent : string -> Schema -> remote -> Result handle * remote;
  classify_file_paths :
    list ClassifierRule -> list string -> ClassifyParsingConfiguration ->
    Files -> remote -> Result ClassifyJobResults * remote;
  extract : handle -> string -> Files -> remote -> Result ExtractRun * remote
}.

(** ** What the script shows and calls *)

Inductive Markup :=
  | PageBanner
  | ClassifiedBox (doc_type : string) (confidence : float)
  | DataHeading (text : string)
  | CardsOpen
  | Card (card_title card_body : string)
  | CardsClose.

Inductive Event (H : Type) :=
  | EvGetAgent (agent_name : string)
  | EvCreateAgent (agent_name : string) (schema : Schema)
  | EvClassify (rules : list ClassifierRule) (paths : list string)
      (parsing : ClassifyParsingConfiguration)
  | EvExtract (agent : H) (path : string)
  | EvOpenWrite (path : string) (content : Bytes)
  | EvRemove (path : string)
  | EvSetPageConfig
  | EvFileUploader
  | EvInfo (msg : string)
  | EvError (msg : string)
  | EvWarning (msg : string)
  | EvWrite (label text : string)
  | EvMarkdown (m : Markup).
Arguments EvGetAgent {H}.
Arguments EvCreateAgent {H}.
Arguments EvClassify {H}.
Arguments EvExtract {H}.
Arguments EvOpenWrite {H}.
Arguments EvRemove {H}.
Arguments EvSetPageConfig {H}.
Arguments EvFileUploader {H}.
Arguments EvInfo {H}.
Arguments EvError {H}.
Arguments EvWarning {H}.
Arguments EvWrite {H}.
Arguments EvMarkdown {H}.

Record UploadedFile := mkUpload {
  name : string;
  getbuffer : Bytes
}.

(** ** The script *)

Section Script.

Context (C : Cloud).

(** The built-ins of the Python that runs the script. *)
Context (py : Python).

Record World := mkWorld {
  cloud : remote C;
  files : Files;
  trace : list (Event (handle C))
}.

(** A statement runs from a world to an outcome and the world it
    leaves; a raised exception keeps the world of the raise. *)
Definition M (A : Type) : Type := World -> Result A * World.

#[global] Instance M_ret : MRet M := fun A a w => (Ok a, w).

#[global] Instance M_bind : MBind M := fun A B k m w =>
  match m w with
  | (Ok a, w') => k a w'
  | (Raise e, w') => (Raise e, w')
  end.

Definition raise {A} (e : exn) : M A := fun w => (Raise e, w).

(** [try: body / except: handler], the bare [except] that catches
    every exception. *)
Definition try_except {A} (body : M A) (handler : exn -> M A) : M A :=
  fun w =>
    match body w with
    | (Ok a, w') => (Ok a, w')
    | (Raise e, w') => handler e w'
    end.

Definition emit (ev : Event (handle C)) : M unit := fun w =>
  (Ok tt, mkWorld (cloud w) (files w) (trace w ++ [ev])).

(** A call of the cloud client: logged, then answered by the
    service. *)
Definition call {A} (ev : Event (handle C))
    (f : Files -> remote C -> Result A * remote C) : M A := fun w =>
  let '(r, c') := f (files w) (cloud w) in
  (r, mkWorld c' (files w) (trace w ++ [ev])).

Definition extractor_get_agent (agent_name : string) : M (handle C) :=
  call (EvGetAgent agent_name) (fun _ => get_agent C agent_name).

Definition extractor_create_agent (agent_name : string) (schema : Schema)
    : M (handle C) :=
  call (EvCreateAgent agent_name schema)
       (fun _ => create_agent C agent_name schema).

Definition classify_client_classify_file_paths
    (rules : list ClassifierRule) (file_input_paths : list string)
    (parsing_configuration : ClassifyParsingConfiguration)
    : M ClassifyJobResults :=
  call (EvClassify rules file_input_paths parsing_configuration)
       (classify_file_paths C rules file_input_paths parsing_configuration).

Definition agent_extract (agent : handle C) (path : string) : M ExtractRun :=
  call (EvExtract agent path) (extract C agent path).

(** [with open(path, "wb") as f: f.write(content)] when the open
    succeeds; the open that raises is in [handle_request]. *)
Definition open_write (path : string) (content : Bytes) : M unit := fun w =>
  (Ok tt, mkWorld (cloud w) (<[path := content]> (files w))
                  (trace w ++ [EvOpenWrite path content])).

(** [os.remove(path)] *)
Definition os_remove (path : string) : M unit := fun w =>
  let w' := mkWorld (cloud w) (delete path (files w))
                    (trace w ++ [EvRemove path]) in
  match files w !! path with
  | Some _ => (Ok tt, w')
  | None =>
      (Raise (FileNotFoundError path),
       mkWorld (cloud w) (files w) (trace w ++ [EvRemove path]))
  end.

(** *** Create / load agents *)

Definition ensure_agent (agent_name : string) (schema : Schema)
    (agents : gmap string (handle C)) : M (gmap string (handle C)) :=
  try_except
    (h ← extractor_get_agent agent_name;
     mret (<[agent_name := h]> agents))
    (fun _ =>
     h ← extractor_create_agent agent_name schema;
     mret (<[agent_name := h]> agents)).

Fixpoint provision_loop (defs : list (string * Schema))
    (agents : gmap string (handle C)) : M (gmap string (handle C)) :=
  match defs with
  | [] => mret agents
  | (agent_name, schema) :: rest =>
      agents' ← ensure_agent agent_name schema agents;
      provision_loop rest agents'
  end.

Definition provision : M (gmap string (handle C)) :=
  provision_loop agent_definitions ∅.

(** *** Card renderer *)

(** [str(v)]: a string is its own text; [None], booleans and integers
    print as Python prints them; the rest is left to the built-in. *)
Definition str (v : Value) : string :=
  match v with
  | VStr s => s
  | VNone => "None"
  | VBool true => "True"
  | VBool false => "False"
  | VInt n => NilZero.string_of_int (Z.to_int n)
  | _ => str_builtin py v
  end.

(** [s.title()]: computed when [s] is ASCII text, Python's own
    otherwise. *)
Definition str_title (s : string) : string :=
  if Str.is_ascii s then Str.ascii_title s else title_builtin py s.

Definition st_markdown (m : Markup) : M unit := emit (EvMarkdown m).
Definition st_info (msg : string) : M unit := emit (EvInfo msg).
Definition st_error (msg : string) : M unit := emit (EvError msg).
Definition st_warning (msg : string) : M unit := emit (EvWarning msg).
Definition st_write (label text : string) : M unit :=
  emit (EvWrite label text).

(** The body of the loop of [render_cards]: the card of one entry. *)
Definition card (entry : string * Value) : Markup :=
  let '(key, value) := entry in
  let value :=
    match value with
    | VList vs => VStr (Str.join "<br>" (List.map str vs))
    | _ => value
    end in
  Card (str_title (Str.replace "_" " " key)) (str value).

Fixpoint render_entries (entries : Dict) : M unit :=
  match entries with
  | [] => mret tt
  | entry :: rest => st_markdown (card entry);; render_entries rest
  end.

Definition render_cards (data : Dict) : M unit :=
  st_markdown CardsOpen;;
  render_entries data;;
  st_markdown CardsClose.

(** *** Upload handler *)

Definition rules : list ClassifierRule :=
  [ mkRule "invoice" "Contains invoice number, date, and total.";
    mkRule "receipt" "Contains purchase info.";
    mkRule "resume" "Contains skills, education, and experience.";
    mkRule "aadhaar" "Contains 12-digit Aadhaar number and address.";
    mkRule "pan" "Contains PAN number and name.";
    mkRule "bank" "Contains transaction details and account number." ].

Definition parsing : ClassifyParsingConfiguration := mkParsing EN 5.

Definition classifying_msg : string := "🔍 Classifying document...".
Definition classification_failed_msg : string :=
  "⚠️ Classification failed for this document.".
Definition extracting_msg : string := "⚡ Extracting data...".
Definition no_extractor_msg (doc_type : string) : string :=
  "No extractor found for document type: " +:+ doc_type.
Definition data_heading (doc_type : string) : string :=
  "### 🗂 " +:+ str_title (Str.replace "-" " " doc_type) +:+ " Data".

(** [xs[0]] *)
Definition first_item {A} (xs : list A) : M A :=
  match xs with
  | x :: _ => mret x
  | [] => raise IndexError
  end.

Definition temp_path (uploaded_file : UploadedFile) : string :=
  "temp_" +:+ name uploaded_file.

Definition agent_key_of (doc_type : string) : string :=
  doc_type +:+ "-extractor".

Definition handle_upload (agents : gmap string (handle C))
    (uploaded_file : UploadedFile) : M unit :=
  let temp_file_path := temp_path uploaded_file in
  open_write temp_file_path (getbuffer uploaded_file);;
  st_info classifying_msg;;
  results ← classify_client_classify_file_paths
              rules [temp_file_path] parsing;
  item ← first_item (items results);
  match result item with
  | None => st_error classification_failed_msg
  | Some res =>
      let doc_type := cr_type res in
      let confidence := cr_confidence res in
      st_markdown (ClassifiedBox doc_type confidence);;
      st_write "**Reasoning:**" (cr_reasoning res);;
      st_info extracting_msg;;
      let agent_key := agent_key_of doc_type in
      (* [agents.get(agent_key)] followed by [if extract_agent:]; an
         agent object is truthy, so the test is whether the key is bound *)
      match agents !! agent_key with
      | Some extract_agent =>
          extract_result ← agent_extract extract_agent temp_file_path;
          st_markdown (DataHeading (data_heading doc_type));;
          render_cards (data extract_result)
      | None => st_warning (no_extractor_msg doc_type)
      end
  end;;
  os_remove temp_file_path.

(** *** One run of the script *)

Definition app (uploaded_file : option UploadedFile) : M unit :=
  agents ← provision;
  emit EvSetPageConfig;;
  st_markdown PageBanner;;
  emit EvFileUploader;;
  match uploaded_file with
  | Some f => handle_upload agents f
  | None => mret tt
  end.

(** *** Reading a run *)

(** The events a statement adds to the trace of the world it starts
    from. *)
Definition emitted {A} (m : M A) (w : World) : list (Event (handle C)) :=
  drop (length (trace w)) (trace (m w).2).

Definition outcome {A} (m : M A) (w : World) : Result A := (m w).1.

Definition final {A} (m : M A) (w : World) : World := (m w).2.

End Script.

Arguments mkWorld {C}.
Arguments cloud {C}.
Arguments files {C}.
Arguments trace {C}.
Arguments emitted {C A}.
Arguments outcome {C A}.
Arguments final {C A}.

Definition is_extract {H} (ev : Event H) : bool :=
  match ev with EvExtract _ _ => true | _ => false end.

Definition is_remove {H} (ev : Event H) : bool :=
  match ev with EvRemove _ => true | _ => false end.

Definition is_create {H} (ev : Event H) : bool :=
  match ev with EvCreateAgent _ _ => true | _ => false end.

Definition is_warning {H} (ev : Event H) : bool :=
  match ev with EvWarning _ => true | _ => false end.

(** The path lists of the classification calls in a list of events. *)
Fixpoint classify_calls {H} (evs : list (Event H)) : list (list string) :=
  match evs with
  | [] => []
  | EvClassify _ paths _ :: rest => paths :: classify_calls rest
  | _ :: rest => classify_calls rest
  end.

(** The [(title, body)] pairs of the cards in a list of events. *)
Fixpoint cards_shown {H} (evs : list (Event H)) : list (string * string) :=
  match evs with
  | [] => []
  | EvMarkdown (Card t b) :: rest => (t, b) :: cards_shown rest
  | _ :: rest => cards_shown rest
  end.

(** ** A reference cloud account

    A small account used to run the script on concrete inputs. It keeps
    the agents created so far, a schedule saying which of the coming
    fetches fail with a network error, and the fixed answers of the
    classifier and of the extraction agents. *)

Module Account.

Record state := mkState {
  store : list (string * Schema);
  outages : list bool
}.

Definition has_agent (agent_name : string) (st : state) : bool :=
  existsb (fun entry => String.eqb entry.1 agent_name) (store st).

Definition fetch (agent_name : string) (st : state)
    : Result string * state :=
  match outages st with
  | true :: later =>
      (Raise (RemoteError "connection timed out"),
       mkState (store st) later)
  | _ =>
      let st' := mkState (store st) (tail (outages st)) in
      if has_agent agent_name st then (Ok agent_name, st')
      else (Raise (RemoteError "agent not found"), st')
  end.

Definition create (agent_name : string) (schema : Schema) (st : state)
    : Result string * state :=
  (Ok agent_name,
   mkState (store st ++ [(agent_name, schema)]) (outages st)).

Definition service (classified : Result ClassifyJobResults)
    (extracted : Result ExtractRun) : Cloud :=
  {| remote := state;
     handle := string;
     get_agent := fetch;
     create_agent := create;
     classify_file_paths := fun _ _ _ _ st => (classified, st);
     extract := fun _ _ _ st => (extracted, st) |}.

Definition fresh : state := mkState [] [].

Definition start (svc : Cloud) (st : remote svc) : World svc :=
  mkWorld st ∅ [].

End Account.

(** ** Reading the runs of the script *)

Section Reading.

Context {C : Cloud}.

Implicit Types (w : World C).

(** A handle the client library returned for [agent_name]: by the
    fetch, or by the create that follows a failed fetch. *)
Definition fetched_or_created (agent_name : string) (schema : Schema)
    (h : handle C) : Prop :=
  exists c : remote C,
    (get_agent C agent_name c).1 = Ok h \/
    (exists e, (get_agent C agent_name c).1 = Raise e /\
       (create_agent C agent_name schema (get_agent C agent_name c).2).1
         = Ok h).

(** The world in which the classifier is called: the upload is on disk. *)
Definition staged (up : UploadedFile) w : Files :=
  <[temp_path up := getbuffer up]> (files w).

Definition classified (up : UploadedFile) w
    : Result ClassifyJobResults * remote C :=
  classify_file_paths C rules [temp_path up] parsing (staged up w) (cloud w).

(** The events every run of the handler starts with. *)
Definition opening (up : UploadedFile) : list (Event (handle C)) :=
  [ EvOpenWrite (temp_path up) (getbuffer up);
    EvInfo classifying_msg;
    EvClassify rules [temp_path up] parsing ].

(** The events of a classified document, up to the agent lookup. *)
Definition announced (res : ClassificationResult)
    : list (Event (handle C)) :=
  [ EvMarkdown (ClassifiedBox (cr_type res) (cr_confidence res));
    EvWrite "**Reasoning:**" (cr_reasoning res);
    EvInfo extracting_msg ].

End Reading.

(** The title and the body of the card of one entry, as [card] builds
    them. *)
Definition card_text (sb : Python) (entry : string * Value)
    : string * string :=
  (str_title sb (Str.replace "_" " " entry.1),
   match entry.2 with
   | VList vs => Str.join "<br>" (List.map (str sb) vs)
   | v => str sb v
   end).

(** ** The statements of the specification

    Definitions that follow the words of the specification, to be
    compared with what the script computes. *)

(** The claim of idempotence as the specification words it: once a first
    provisioning step for a name has completed, a second step for the same
    name fetches the existing agent and calls nothing else. *)
Definition rerun_only_fetches (C : Cloud) (agent_name : string)
    (schema : Schema) (w : World C) : Prop :=
  forall agents1 w1,
    ensure_agent C agent_name schema ∅ w = (Ok agents1, w1) ->
    emitted (ensure_agent C agent_name schema agents1) w1 =
      [EvGetAgent agent_name].

(** The title character the specification asks for at one position of a
    field name: an underscore becomes a space; a letter is raised at the
    start of a word and lowered inside one; anything else is kept.
    [inside_word] says that the character before it is a letter. *)
Definition display_char (inside_word : bool) (c : ascii) : ascii :=
  if Ascii.eqb c "_" then " "%char
  else if Str.is_alpha c then
    (if inside_word then Str.to_lower c else Str.to_upper c)
  else c.

(** Whether position [j] of [s] comes right after a letter. *)
Definition after_letter (s : string) (j : nat) : bool :=
  match j with
  | O => false
  | S k =>
      match String.get k s with
      | Some previous => Str.is_alpha previous
      | None => false
      end
  end.

(** ** Concrete accounts, uploads and documents *)

(** A reference account whose classifier and agents are never asked. *)
Definition idle_cloud : Cloud :=
  Account.service (Raise (RemoteError "unused")) (Raise (RemoteError "unused")).

(** The first fetch meets a network error. *)
Definition outage_world : World idle_cloud :=
  Account.start idle_cloud (Account.mkState [] [true]).

(** A fresh account: every fetch answers "not found", every agent is
    created. *)
Definition fresh_world : World idle_cloud :=
  Account.start idle_cloud Account.fresh.

Definition fresh_agents : gmap string string :=
  match (provision idle_cloud fresh_world).1 with
  | Ok agents => agents
  | Raise _ => ∅
  end.

(** The first fetch answers "not found", the second one meets a network
    error. *)
Definition flaky_world : World idle_cloud :=
  Account.start idle_cloud (Account.mkState [] [false; true]).

Definition after_first_run : World idle_cloud :=
  (ensure_agent idle_cloud "invoice-extractor" Invoice ∅ flaky_world).2.

Definition calm_world : World idle_cloud :=
  Account.start idle_cloud (Account.mkState [] [false; false]).

Definition scan : UploadedFile :=
  mkUpload "scan.pdf" [Byte.x25; Byte.x50; Byte.x44; Byte.x46].

Definition plain_str : Python :=
  {| str_builtin := fun _ => "<object>";
     title_builtin := fun s => s |}.

Definition unclassified : ClassifyJobResults := mkResults [mkItem None].

Definition payslip : ClassificationResult :=
  mkClassification "payslip" 0.8%float "Lists salary and deductions".

Definition invoice : ClassificationResult :=
  mkClassification "invoice" 0.91%float "Contains invoice number and total".

Definition invoice_data : Dict :=
  [ ("invoice_number", VStr "INV-001");
    ("date", VStr "2024-01-01");
    ("total", VFloat 250%float);
    ("items", VList [VStr "pen"; VInt 2; VStr "ink"]) ].

(** The classifier returns a null result. *)
Definition null_cloud : Cloud :=
  Account.service (Ok unclassified) (Raise (RemoteError "unused")).

(** The classifier answers with a type that has no agent. *)
Definition payslip_cloud : Cloud :=
  Account.service (Ok (mkResults [mkItem (Some payslip)]))
                  (Raise (RemoteError "unused")).

(** The classifier answers "invoice", the extraction fails. *)
Definition overloaded_cloud : Cloud :=
  Account.service (Ok (mkResults [mkItem (Some invoice)]))
                  (Raise (RemoteError "rate limit exceeded")).

(** The classifier answers "invoice", the extraction succeeds. *)
Definition invoice_cloud : Cloud :=
  Account.service (Ok (mkResults [mkItem (Some invoice)]))
                  (Ok (mkRun invoice_data)).

Definition items_field : list Value := [VStr "pen"; VInt 2; VStr "ink"].

(** The character of the data heading at one position of a type label:
    a hyphen becomes a space; a letter is raised at the start of a word
    and lowered inside one; anything else is kept. *)
Definition heading_char (inside_word : bool) (c : ascii) : ascii :=
  if Ascii.eqb c "-" then " "%char
  else if Str.is_alpha c then
    (if inside_word then Str.to_lower c else Str.to_upper c)
  else c.

(** ** Reading the calls of a run *)

Definition is_agent_call {H} (ev : Event H) : bool :=
  match ev with
  | EvGetAgent _ | EvCreateAgent _ _ => true
  | _ => false
  end.

(** The names fetched, in the order of the calls. *)
Fixpoint fetch_calls {H} (evs : list (Event H)) : list string :=
  match evs with
  | [] => []
  | EvGetAgent agent_name :: rest => agent_name :: fetch_calls rest
  | _ :: rest => fetch_calls rest
  end.

(** The agents created, in the order of the calls. *)
Fixpoint create_calls {H} (evs : list (Event H)) : list (string * Schema) :=
  match evs with
  | [] => []
  | EvCreateAgent agent_name schema :: rest =>
      (agent_name, schema) :: create_calls rest
  | _ :: rest => create_calls rest
  end.

(** The extraction calls, in the order of the calls. *)
Fixpoint extract_calls {H} (evs : list (Event H)) : list (H * string) :=
  match evs with
  | [] => []
  | EvExtract agent path :: rest => (agent, path) :: extract_calls rest
  | _ :: rest => extract_calls rest
  end.

(** The page elements the script shows before it looks at the upload. *)
Definition page_events {H} : list (Event H) :=
  [EvSetPageConfig; EvMarkdown PageBanner; EvFileUploader].

(** The world in which the upload is handled: provisioning is over and
    the page is shown. *)
Definition served {C : Cloud} (w : World C) : World C :=
  mkWorld (cloud w) (files w) (trace w ++ page_events).

(** The extraction call the classification of an upload calls for: one
    call, on the temporary file and on the agent bound under the key of
    the type of the first result, when the classifier returns, its first
    result is not null and that key is bound; none otherwise. *)
Definition expected_extraction {C : Cloud} (agents : gmap string (handle C))
    (up : UploadedFile) (w : World C) : list (handle C * string) :=
  match classified up w with
  | (Ok results, _) =>
      match items results with
      | item :: _ =>
          match result item with
          | Some res =>
              match agents !! (cr_type res +:+ "-extractor") with
              | Some agent => [(agent, temp_path up)]
              | None => []
              end
          | None => []
          end
      | [] => []
      end
  | (Raise _, _) => []
  end.

(** ** The upload when the temporary file cannot be opened

    [handle_upload] starts with the temporary file written. The
    [open(temp_file_path, "wb")] of the script can also raise (a name too
    long for the file system, a name that points into a directory that
    does not exist, a directory that is not writable): it then creates no
    file and the exception ends the request before anything else.
    [open_raises path files] is the exception the open raises on the
    given files, if it raises; a failed open leaves no event. *)

Section Request.

Context (C : Cloud) (py : Python).

Variable open_raises : string -> Files -> option exn.


End Request.



(** ** An account with a quota

    The reference account, except that it refuses to create an agent
    once [quota] agents exist. *)

Module Quota.

Definition create (quota : nat) (agent_name : string) (schema : Schema)
    (st : Account.state) : Result string * Account.state :=
  if (length (Account.store st) <? quota)%nat
  then Account.create agent_name schema st
  else (Raise (RemoteError "agent quota exceeded"), st).

Definition service (quota : nat) : Cloud :=
  {| remote := Account.state;
     handle := string;
     get_agent := Account.fetch;
     create_agent := create quota;
     classify_file_paths := fun _ _ _ _ st =>
       (Raise (RemoteError "unused"), st);
     extract := fun _ _ _ st => (Raise (RemoteError "unused"), st) |}.

End Quota.

(** An account that accepts two agents, seen from a fresh start. *)
Definition small_cloud : Cloud := Quota.service 2.

Definition small_world : World small_cloud :=
  Account.start small_cloud Account.fresh.

(** An account on which every agent already exists and every fetch
    answers. *)
Definition steady_cloud : Cloud :=
  {| remote := unit;
     handle := string;
     get_agent := fun agent_name st => (Ok agent_name, st);
     create_agent := fun _ _ st =>
       (Raise (RemoteError "agent already exists"), st);
     classify_file_paths := fun _ _ _ _ st =>
       (Raise (RemoteError "unused"), st);
     extract := fun _ _ _ st => (Raise (RemoteError "unused"), st) |}.

Definition steady_world : World steady_cloud := @mkWorld steady_cloud tt ∅ [].

(** The classifier returns an empty result list. *)
Definition silent_cloud : Cloud :=
  Account.service (Ok (mkResults [])) (Raise (RemoteError "unused")).

(** A run of the script that finds a file of another request at the
    temporary path. *)
Definition cluttered_world : World invoice_cloud :=
  @mkWorld invoice_cloud Account.fresh
    {[ "temp_scan.pdf" := [Byte.x00]; "notes.txt" := [Byte.x41] ]} [].

(** * Properties *)

(** ** Running the monad *)

Section Runs.

Context {C : Cloud}.

Lemma emitted_app {A} (m : M C A) (w : World C) evs :
  trace (m w).2 = trace w ++ evs -> emitted m w = evs.
Proof. intros E. unfold emitted. rewrite E. apply drop_app_length. Qed.

Lemma bind_ok {A B} (m : M C A) (k : A -> M C B) w a w' :
  m w = (Ok a, w') -> (m ≫= k) w = k a w'.
Proof. intros E. unfold mbind, M_bind. now rewrite E. Qed.

Lemma bind_raise {A B} (m : M C A) (k : A -> M C B) w e w' :
  m w = (Raise e, w') -> (m ≫= k) w = (Raise e, w').
Proof. intros E. unfold mbind, M_bind. now rewrite E. Qed.

Lemma call_run {A} ev (f : Files -> remote C -> Result A * remote C) w :
  call C ev f w =
    ((f (files w) (cloud w)).1,
     mkWorld (f (files w) (cloud w)).2 (files w) (trace w ++ [ev])).
Proof. unfold call. now destruct (f (files w) (cloud w)). Qed.

End Runs.

(** ** Provisioning *)

Section Provisioning.

Context {C : Cloud}.

(** The run of [ensure_agent] when the fetch succeeds. *)
Lemma ensure_agent_fetched agent_name schema agents (w : World C) h c1 :
  get_agent C agent_name (cloud w) = (Ok h, c1) ->
  ensure_agent C agent_name schema agents w =
    (Ok (<[agent_name := h]> agents),
     mkWorld c1 (files w) (trace w ++ [EvGetAgent agent_name])).
Proof.
  intros E. unfold ensure_agent, try_except, extractor_get_agent.
  unfold mbind, M_bind. rewrite call_run, E. reflexivity.
Qed.

(** The run of [ensure_agent] when the fetch raises. *)
Lemma ensure_agent_fallback agent_name schema agents (w : World C) e c1 :
  get_agent C agent_name (cloud w) = (Raise e, c1) ->
  ensure_agent C agent_name schema agents w =
    (match (create_agent C agent_name schema c1).1 with
     | Ok h => Ok (<[agent_name := h]> agents)
     | Raise e' => Raise e'
     end,
     mkWorld (create_agent C agent_name schema c1).2 (files w)
       (trace w ++ [EvGetAgent agent_name;
                    EvCreateAgent agent_name schema])).
Proof.
  intros E. unfold ensure_agent, try_except, extractor_get_agent,
    extractor_create_agent.
  unfold mbind, M_bind. rewrite call_run, E. cbn.
  rewrite call_run. cbn. rewrite <- app_assoc. cbn.
  now destruct (create_agent C agent_name schema c1) as [[h|e'] c2].
Qed.

Lemma ensure_agent_ok agent_name schema agents (w : World C) agents' w' :
  ensure_agent C agent_name schema agents w = (Ok agents', w') ->
  exists h, agents' = <[agent_name := h]> agents /\
            fetched_or_created agent_name schema h.
Proof.
  destruct (get_agent C agent_name (cloud w)) as [[h|e] c1] eqn:E.
  - rewrite (ensure_agent_fetched _ _ _ _ _ _ E). intros [= <- <-].
    exists h. split; [done|]. exists (cloud w). left. now rewrite E.
  - rewrite (ensure_agent_fallback _ _ _ _ _ _ E).
    destruct (create_agent C agent_name schema c1) as [[h|e'] c2] eqn:E2;
      cbn; intros [= <- <-].
    exists h. split; [done|]. exists (cloud w). right. exists e.
    rewrite E. cbn. now rewrite E2.
Qed.

(** The loop invariant: keys outside the table are left alone, every
    entry of the table ends up bound. *)
Lemma provision_loop_ok defs :
  NoDup defs.*1 ->
  forall agents (w : World C) agents' w',
    provision_loop C defs agents w = (Ok agents', w') ->
    (forall k, k ∉ defs.*1 -> agents' !! k = agents !! k) /\
    (forall agent_name schema, (agent_name, schema) ∈ defs ->
       exists h, agents' !! agent_name = Some h /\
                 fetched_or_created agent_name schema h).
Proof.
  induction defs as [|[n s] rest IH]; intros ND agents w agents' w' Hrun.
  - cbn in Hrun. injection Hrun as <- <-. split; [done|].
    intros ? ? Hin. by apply elem_of_nil in Hin.
  - cbn in ND. apply NoDup_cons in ND as [Hn ND].
    cbn [provision_loop] in Hrun.
    destruct (ensure_agent C n s agents w) as [[agents1|e] w1] eqn:E1.
    2: { rewrite (bind_raise _ _ _ _ _ E1) in Hrun. discriminate. }
    rewrite (bind_ok _ _ _ _ _ E1) in Hrun.
    destruct (ensure_agent_ok _ _ _ _ _ _ E1) as (h & -> & Hh).
    destruct (IH ND _ _ _ _ Hrun) as [Hout Hin]. split.
    + intros k Hk. cbn in Hk. apply not_elem_of_cons in Hk as [Hkn Hk].
      rewrite (Hout _ Hk). by rewrite lookup_insert_ne.
    + intros n' s' Hmem. apply elem_of_cons in Hmem as [[= -> ->]|Hmem].
      * exists h. split; [|done].
        rewrite (Hout _ Hn). apply lookup_insert_eq.
      * by apply Hin.
Qed.

Lemma agent_names_distinct : NoDup agent_definitions.*1.
Proof. apply (bool_decide_unpack _). by vm_compute. Qed.

Lemma provision_ok (w : World C) agents w' :
  provision C w = (Ok agents, w') ->
  (forall k, k ∉ agent_definitions.*1 -> agents !! k = None) /\
  (forall agent_name schema,
     (agent_name, schema) ∈ agent_definitions ->
     exists h, agents !! agent_name = Some h /\
               fetched_or_created agent_name schema h).
Proof.
  intros Hrun.
  destruct (provision_loop_ok _ agent_names_distinct _ _ _ _ Hrun)
    as [Hout Hin].
  split; [|done]. intros k Hk. rewrite (Hout _ Hk). apply lookup_empty.
Qed.

End Provisioning.

(** C4: when the fetch of an agent raises, whatever the exception, the
    provisioning step goes on to call create with the same name and that
    name's schema; the outcome of the step is the outcome of the create
    call (the new handle bound under the name, or the exception of the
    create), never the exception of the fetch. *)
Theorem fetch_failure_falls_through_to_create
    (C : Cloud) agent_name schema agents (w : World C) e c1 :
  get_agent C agent_name (cloud w) = (Raise e, c1) ->
  emitted (ensure_agent C agent_name schema agents) w =
    [EvGetAgent agent_name; EvCreateAgent agent_name schema] /\
  outcome (ensure_agent C agent_name schema agents) w =
    match (create_agent C agent_name schema c1).1 with
    | Ok h => Ok (<[agent_name := h]> agents)
    | Raise e' => Raise e'
    end /\
  cloud (final (ensure_agent C agent_name schema agents) w) =
    (create_agent C agent_name schema c1).2.
Proof.
  intros E. unfold outcome, final.
  rewrite (ensure_agent_fallback _ _ _ _ _ _ E). split; [|done].
  apply emitted_app. now rewrite (ensure_agent_fallback _ _ _ _ _ _ E).
Qed.

Lemma fetch_failure_falls_through_to_create_witness :
  get_agent idle_cloud "invoice-extractor" (cloud outage_world) =
    (Raise (RemoteError "connection timed out"), Account.fresh) /\
  emitted (ensure_agent idle_cloud "invoice-extractor" Invoice ∅)
          outage_world =
    [EvGetAgent "invoice-extractor";
     EvCreateAgent "invoice-extractor" Invoice].
Proof.
  split; [reflexivity|].
  apply (fetch_failure_falls_through_to_create idle_cloud
           "invoice-extractor" Invoice ∅ outage_world
           (RemoteError "connection timed out") Account.fresh).
  reflexivity.
Defined.

(** C3: when the provisioning loop completes, the agents mapping has
    exactly the ten names of the agent definitions table as its keys, and
    each name is bound to a handle the client returned for that name,
    from the fetch or from the create that follows a failed fetch. *)
Theorem every_registered_agent_is_provisioned
    (C : Cloud) (w : World C) agents w' :
  provision C w = (Ok agents, w') ->
  length agent_definitions = 10 /\
  dom agents = list_to_set agent_definitions.*1 /\
  (forall agent_name schema,
     (agent_name, schema) ∈ agent_definitions ->
     exists h, agents !! agent_name = Some h /\
               fetched_or_created agent_name schema h).
Proof.
  intros Hrun. destruct (provision_ok _ _ _ Hrun) as [Hout Hin].
  split; [reflexivity|]. split; [|done].
  apply set_eq. intros k. rewrite elem_of_dom, elem_of_list_to_set. split.
  - intros [h Hk]. destruct (decide (k ∈ agent_definitions.*1)); [done|].
    rewrite (Hout _ n) in Hk. discriminate.
  - intros Hk. apply list_elem_of_fmap in Hk as ([n s] & -> & Hmem).
    destruct (Hin _ _ Hmem) as (h & Hh & _). by exists h.
Qed.

Lemma every_registered_agent_is_provisioned_witness :
  provision idle_cloud fresh_world =
    (Ok fresh_agents, (provision idle_cloud fresh_world).2) /\
  dom fresh_agents = list_to_set agent_definitions.*1.
Proof.
  assert (E : provision idle_cloud fresh_world =
              (Ok fresh_agents, (provision idle_cloud fresh_world).2))
    by (vm_compute; reflexivity).
  split; [exact E|].
  apply (every_registered_agent_is_provisioned idle_cloud fresh_world
           fresh_agents _ E).
Defined.

(** ** Provisioning a name a second time *)

Example flaky_first_run :
  ensure_agent idle_cloud "invoice-extractor" Invoice ∅ flaky_world =
    (Ok {[ "invoice-extractor" := "invoice-extractor" ]}, after_first_run) /\
  Account.store (cloud after_first_run) = [("invoice-extractor", Invoice)].
Proof. split; reflexivity. Qed.

Example flaky_second_run :
  emitted (ensure_agent idle_cloud "invoice-extractor" Invoice
             {[ "invoice-extractor" := "invoice-extractor" ]})
          after_first_run =
    [EvGetAgent "invoice-extractor";
     EvCreateAgent "invoice-extractor" Invoice] /\
  Account.store
    (cloud (final (ensure_agent idle_cloud "invoice-extractor" Invoice
                     {[ "invoice-extractor" := "invoice-extractor" ]})
                  after_first_run)) =
    [("invoice-extractor", Invoice); ("invoice-extractor", Invoice)].
Proof. split; reflexivity. Qed.

(** C9, as stated, fails: when the second fetch raises (here a network
    error while the agent exists), the second provisioning step calls
    create again for the same name. *)
Lemma rerun_may_create_again :
  ~ rerun_only_fetches idle_cloud "invoice-extractor" Invoice flaky_world.
Proof.
  intros Hclaim.
  specialize (Hclaim {[ "invoice-extractor" := "invoice-extractor" ]}
                after_first_run (proj1 flaky_first_run)).
  rewrite (proj1 flaky_second_run) in Hclaim. discriminate.
Qed.

(** C9, amended: when a provisioning step for a name is run a second
    time and the fetch succeeds on that second call, create is not
    invoked again: the step makes the fetch call only, binds the name to
    the fetched handle, and leaves the remote account as the fetch alone
    leaves it, so no schema is bound anew. *)
Theorem rerun_with_successful_fetch_skips_create
    (C : Cloud) agent_name schema agents (w : World C) agents1 w1 h c2 :
  ensure_agent C agent_name schema agents w = (Ok agents1, w1) ->
  get_agent C agent_name (cloud w1) = (Ok h, c2) ->
  emitted (ensure_agent C agent_name schema agents1) w1 =
    [EvGetAgent agent_name] /\
  existsb is_create (emitted (ensure_agent C agent_name schema agents1) w1)
    = false /\
  outcome (ensure_agent C agent_name schema agents1) w1 =
    Ok (<[agent_name := h]> agents1) /\
  cloud (final (ensure_agent C agent_name schema agents1) w1) = c2.
Proof.
  intros _ E.
  assert (Hev : emitted (ensure_agent C agent_name schema agents1) w1 =
                [EvGetAgent agent_name]).
  { apply emitted_app. now rewrite (ensure_agent_fetched _ _ _ _ _ _ E). }
  rewrite Hev. unfold outcome, final.
  now rewrite (ensure_agent_fetched _ _ _ _ _ _ E).
Qed.

(** On the reference account a fetch that meets no outage finds every
    agent a completed step has left, and does not touch the store. *)
Lemma account_fetch_after_step agent_name schema agents
    (w : World idle_cloud) agents1 w1 :
  ensure_agent idle_cloud agent_name schema agents w = (Ok agents1, w1) ->
  head (Account.outages (cloud w1)) ≠ Some true ->
  exists c2,
    get_agent idle_cloud agent_name (cloud w1) = (Ok agent_name, c2) /\
    Account.store c2 = Account.store (cloud w1).
Proof.
  intros Hrun Hup.
  assert (Hhas : Account.has_agent agent_name (cloud w1) = true).
  { destruct (get_agent idle_cloud agent_name (cloud w))
      as [[h|e] c1] eqn:E.
    - rewrite (ensure_agent_fetched _ _ _ _ _ _ E) in Hrun.
      injection Hrun as <- <-. cbn in *. unfold Account.fetch in E.
      destruct (Account.outages (cloud w)) as [|[] ?];
        try discriminate;
        destruct (Account.has_agent agent_name (cloud w)) eqn:Hh;
        try discriminate; by injection E as <- <-.
    - rewrite (ensure_agent_fallback _ _ _ _ _ _ E) in Hrun.
      injection Hrun as <- <-. cbn. unfold Account.has_agent. cbn.
      rewrite existsb_app. cbn. rewrite String.eqb_refl.
      by rewrite orb_true_r. }
  cbn. unfold Account.fetch.
  destruct (Account.outages (cloud w1)) as [|[] later] eqn:Ho.
  - rewrite Hhas. by eexists.
  - by destruct Hup.
  - rewrite Hhas. by eexists.
Qed.

Lemma rerun_with_successful_fetch_skips_create_witness :
  ensure_agent idle_cloud "invoice-extractor" Invoice ∅ calm_world =
    (Ok {[ "invoice-extractor" := "invoice-extractor" ]},
     (ensure_agent idle_cloud "invoice-extractor" Invoice ∅ calm_world).2) /\
  emitted (ensure_agent idle_cloud "invoice-extractor" Invoice
             {[ "invoice-extractor" := "invoice-extractor" ]})
          (ensure_agent idle_cloud "invoice-extractor" Invoice ∅
             calm_world).2 =
    [EvGetAgent "invoice-extractor"].
Proof.
  split; [reflexivity|].
  apply (rerun_with_successful_fetch_skips_create idle_cloud
           "invoice-extractor" Invoice ∅ calm_world
           {[ "invoice-extractor" := "invoice-extractor" ]}
           (ensure_agent idle_cloud "invoice-extractor" Invoice ∅
              calm_world).2
           "invoice-extractor"
           (Account.mkState [("invoice-extractor", Invoice)] []));
    reflexivity.
Defined.

(** ** The upload handler, path by path *)

Section Handler.

Context {C : Cloud} (sb : Python).

Implicit Types (w : World C) (agents : gmap string (handle C)).

Lemma render_entries_run entries w :
  render_entries C sb entries w =
    (Ok tt,
     mkWorld (cloud w) (files w)
       (trace w ++ ((fun entry => EvMarkdown (card sb entry)) <$> entries))).
Proof.
  revert w. induction entries as [|entry rest IH]; intros [c fs tr]; cbn.
  - by rewrite app_nil_r.
  - unfold mbind, M_bind, st_markdown, emit. cbn. rewrite IH. cbn.
    by rewrite <- app_assoc.
Qed.

Lemma render_cards_run entries w :
  render_cards C sb entries w =
    (Ok tt,
     mkWorld (cloud w) (files w)
       (trace w ++
        EvMarkdown CardsOpen ::
        ((fun entry => EvMarkdown (card sb entry)) <$> entries) ++
        [EvMarkdown CardsClose])).
Proof.
  unfold render_cards, mbind, M_bind, st_markdown, emit. cbn.
  rewrite render_entries_run. cbn. by rewrite <- !app_assoc.
Qed.

Ltac step_handler :=
  unfold handle_upload, classify_client_classify_file_paths, agent_extract,
    open_write, st_info, st_error, st_warning, st_write, st_markdown, emit,
    mbind, M_bind, mret, M_ret, raise; cbn.

Lemma handle_upload_classify_raises agents up w e c1 :
  classified up w = (Raise e, c1) ->
  handle_upload C sb agents up w =
    (Raise e, mkWorld c1 (staged up w) (trace w ++ opening up)).
Proof.
  unfold classified, staged. intros E. step_handler.
  rewrite call_run. cbn. rewrite E. cbn. by rewrite <- !app_assoc.
Qed.

Lemma handle_upload_no_items agents up w results c1 :
  classified up w = (Ok results, c1) ->
  items results = [] ->
  handle_upload C sb agents up w =
    (Raise IndexError, mkWorld c1 (staged up w) (trace w ++ opening up)).
Proof.
  unfold classified, staged. intros E Hitems. step_handler.
  rewrite call_run. cbn. rewrite E. cbn. rewrite Hitems. cbn.
  by rewrite <- !app_assoc.
Qed.

Lemma handle_upload_null agents up w results c1 item rest :
  classified up w = (Ok results, c1) ->
  items results = item :: rest ->
  result item = None ->
  handle_upload C sb agents up w =
    (Ok tt,
     mkWorld c1 (delete (temp_path up) (staged up w))
       (trace w ++ opening up ++
        [EvError classification_failed_msg; EvRemove (temp_path up)])).
Proof.
  unfold classified, staged. intros E Hitems Hres. step_handler.
  rewrite call_run. cbn. rewrite E. cbn. rewrite Hitems. cbn.
  rewrite Hres. cbn. unfold os_remove. cbn. rewrite lookup_insert_eq.
  by rewrite <- !app_assoc.
Qed.

Lemma handle_upload_no_agent agents up w results c1 item rest res :
  classified up w = (Ok results, c1) ->
  items results = item :: rest ->
  result item = Some res ->
  agents !! agent_key_of (cr_type res) = None ->
  handle_upload C sb agents up w =
    (Ok tt,
     mkWorld c1 (delete (temp_path up) (staged up w))
       (trace w ++ opening up ++ announced res ++
        [EvWarning (no_extractor_msg (cr_type res));
         EvRemove (temp_path up)])).
Proof.
  unfold classified, staged. intros E Hitems Hres Hagent. step_handler.
  rewrite call_run. cbn. rewrite E. cbn. rewrite Hitems. cbn.
  rewrite Hres. cbn. rewrite Hagent. cbn.
  unfold os_remove. cbn. rewrite lookup_insert_eq.
  by rewrite <- !app_assoc.
Qed.

Lemma handle_upload_extract_raises agents up w results c1 item rest res
    agent e c2 :
  classified up w = (Ok results, c1) ->
  items results = item :: rest ->
  result item = Some res ->
  agents !! agent_key_of (cr_type res) = Some agent ->
  extract C agent (temp_path up) (staged up w) c1 = (Raise e, c2) ->
  handle_upload C sb agents up w =
    (Raise e,
     mkWorld c2 (staged up w)
       (trace w ++ opening up ++ announced res ++
        [EvExtract agent (temp_path up)])).
Proof.
  unfold classified, staged. intros E Hitems Hres Hagent Hex. step_handler.
  rewrite call_run. cbn. rewrite E. cbn. rewrite Hitems. cbn.
  rewrite Hres. cbn. rewrite Hagent. cbn. rewrite call_run. cbn.
  rewrite Hex. cbn. by rewrite <- !app_assoc.
Qed.

Lemma handle_upload_extracted agents up w results c1 item rest res
    agent run c2 :
  classified up w = (Ok results, c1) ->
  items results = item :: rest ->
  result item = Some res ->
  agents !! agent_key_of (cr_type res) = Some agent ->
  extract C agent (temp_path up) (staged up w) c1 = (Ok run, c2) ->
  handle_upload C sb agents up w =
    (Ok tt,
     mkWorld c2 (delete (temp_path up) (staged up w))
       (trace w ++ opening up ++ announced res ++
        [EvExtract agent (temp_path up);
         EvMarkdown (DataHeading (data_heading sb (cr_type res)));
         EvMarkdown CardsOpen] ++
        ((fun entry => EvMarkdown (card sb entry)) <$> data run) ++
        [EvMarkdown CardsClose; EvRemove (temp_path up)])).
Proof.
  unfold classified, staged. intros E Hitems Hres Hagent Hex. step_handler.
  rewrite call_run. cbn. rewrite E. cbn. rewrite Hitems. cbn.
  rewrite Hres. cbn. rewrite Hagent. cbn. rewrite call_run. cbn.
  rewrite Hex. cbn. rewrite render_cards_run. cbn.
  unfold os_remove. cbn. rewrite lookup_insert_eq.
  rewrite <- !app_assoc. cbn. by rewrite <- !app_assoc.
Qed.

End Handler.

(** Membership of an event in an explicit list of events. *)
Ltac find_event :=
  cbn; repeat first [apply list_elem_of_here | apply list_elem_of_further].

(** ** Failures the handler recovers from *)

(** C1: when the classifier returns a null result for the submitted
    file, the handler shows the error message, makes no extraction call,
    ends normally, and has removed the temporary file when it ends. *)
Theorem null_classification_is_reported_and_cleaned_up
    (C : Cloud) (sb : Python) agents up (w : World C)
    results c1 item rest :
  classified up w = (Ok results, c1) ->
  items results = item :: rest ->
  result item = None ->
  outcome (handle_upload C sb agents up) w = Ok tt /\
  EvError classification_failed_msg ∈ emitted (handle_upload C sb agents up) w /\
  existsb is_extract (emitted (handle_upload C sb agents up) w) = false /\
  last (emitted (handle_upload C sb agents up) w) = Some (EvRemove (temp_path up)) /\
  files (final (handle_upload C sb agents up) w) !! temp_path up = None.
Proof.
  intros E Hitems Hres.
  pose proof (handle_upload_null sb agents up w _ _ _ _ E Hitems Hres) as Hrun.
  assert (Hev : emitted (handle_upload C sb agents up) w =
                opening up ++
                [EvError classification_failed_msg; EvRemove (temp_path up)]).
  { apply emitted_app. by rewrite Hrun. }
  rewrite Hev. unfold outcome, final. rewrite Hrun. cbn.
  repeat split.
  - find_event.
  - apply lookup_delete_eq.
Qed.

(** C2: when the classifier returns type [T] and the agents mapping has
    no entry under ["{T}-extractor"], the handler shows the warning
    "No extractor found for document type: {T}", makes no extraction
    call, ends normally without raising, and has removed the temporary
    file when it ends. *)
Theorem missing_agent_is_warned_and_cleaned_up
    (C : Cloud) (sb : Python) agents up (w : World C)
    results c1 item rest res :
  classified up w = (Ok results, c1) ->
  items results = item :: rest ->
  result item = Some res ->
  agents !! (cr_type res +:+ "-extractor") = None ->
  outcome (handle_upload C sb agents up) w = Ok tt /\
  EvWarning ("No extractor found for document type: " +:+ cr_type res)
    ∈ emitted (handle_upload C sb agents up) w /\
  existsb is_extract (emitted (handle_upload C sb agents up) w) = false /\
  last (emitted (handle_upload C sb agents up) w) = Some (EvRemove (temp_path up)) /\
  files (final (handle_upload C sb agents up) w) !! temp_path up = None.
Proof.
  intros E Hitems Hres Hagent.
  pose proof (handle_upload_no_agent sb agents up w _ _ _ _ _
                E Hitems Hres Hagent) as Hrun.
  assert (Hev : emitted (handle_upload C sb agents up) w =
                opening up ++ announced res ++
                [EvWarning (no_extractor_msg (cr_type res));
                 EvRemove (temp_path up)]).
  { apply emitted_app. by rewrite Hrun. }
  rewrite Hev. unfold outcome, final. rewrite Hrun. cbn.
  repeat split.
  - unfold no_extractor_msg. find_event.
  - apply lookup_delete_eq.
Qed.

(** ** Failures the handler does not recover from *)

(** C5: when the extraction call raises, the handler ends with that same
    exception, the removal of the temporary file is never reached, and
    the file is still on disk with the uploaded content; an exception of
    the classification call aborts the handler in the same way. Only the
    null result and the missing agent are handled. *)
Theorem remote_exception_aborts_and_leaks_temp_file
    (C : Cloud) (sb : Python) agents up (w : World C) :
  (forall results c1 item rest res agent e c2,
     classified up w = (Ok results, c1) ->
     items results = item :: rest ->
     result item = Some res ->
     agents !! agent_key_of (cr_type res) = Some agent ->
     extract C agent (temp_path up) (staged up w) c1 = (Raise e, c2) ->
     outcome (handle_upload C sb agents up) w = Raise e /\
     existsb is_remove (emitted (handle_upload C sb agents up) w) = false /\
     files (final (handle_upload C sb agents up) w) !! temp_path up =
       Some (getbuffer up)) /\
  (forall e c1,
     classified up w = (Raise e, c1) ->
     outcome (handle_upload C sb agents up) w = Raise e /\
     existsb is_remove (emitted (handle_upload C sb agents up) w) = false /\
     files (final (handle_upload C sb agents up) w) !! temp_path up =
       Some (getbuffer up)).
Proof.
  split.
  - intros results c1 item rest res agent e c2 E Hitems Hres Hagent Hex.
    pose proof (handle_upload_extract_raises sb agents up w _ _ _ _ _ _ _ _
                  E Hitems Hres Hagent Hex) as Hrun.
    assert (Hev : emitted (handle_upload C sb agents up) w =
                  opening up ++ announced res ++
                  [EvExtract agent (temp_path up)]).
    { apply emitted_app. by rewrite Hrun. }
    rewrite Hev. unfold outcome, final. rewrite Hrun. cbn.
    repeat split. apply lookup_insert_eq.
  - intros e c1 E.
    pose proof (handle_upload_classify_raises sb agents up w _ _ E) as Hrun.
    assert (Hev : emitted (handle_upload C sb agents up) w = opening up).
    { apply emitted_app. by rewrite Hrun. }
    rewrite Hev. unfold outcome, final. rewrite Hrun. cbn.
    repeat split. apply lookup_insert_eq.
Qed.

(** ** The classification call and its result list *)

Lemma classify_calls_app {H} (l1 l2 : list (Event H)) :
  classify_calls (l1 ++ l2) = classify_calls l1 ++ classify_calls l2.
Proof.
  induction l1 as [|ev l1 IH]; [done|].
  destruct ev; cbn; by rewrite ?IH.
Qed.

Lemma classify_calls_cards {H} (sb : Python) (entries : Dict) :
  classify_calls
    ((fun entry => @EvMarkdown H (card sb entry)) <$> entries) = [].
Proof. induction entries as [|entry rest IH]; [done|]. by cbn. Qed.

Lemma no_warning_in_cards {H} (sb : Python) (entries : Dict) :
  existsb is_warning
    ((fun entry => @EvMarkdown H (card sb entry)) <$> entries) = false.
Proof. induction entries as [|entry rest IH]; [done|]. by cbn. Qed.

(** Every run of the handler starts with the same three events, the
    third being its only classification call; [past] tells whether the
    run went on after reading [results.items[0]]. *)
Lemma handle_upload_shape {C : Cloud} (sb : Python)
    agents up (w : World C) :
  exists rest,
    emitted (handle_upload C sb agents up) w = opening up ++ rest /\
    classify_calls rest = [] /\
    (forall results c1 item others,
       classified up w = (Ok results, c1) ->
       items results = item :: others -> rest <> []).
Proof.
  destruct (classified up w) as [[results|e] c1] eqn:E.
  2: { exists []. rewrite app_nil_r. split; [|split; [done|congruence]].
       apply emitted_app.
       by rewrite (handle_upload_classify_raises sb agents up w _ _ E). }
  destruct (items results) as [|item others] eqn:Hitems.
  { exists []. rewrite app_nil_r. split; [|split; [done|congruence]].
    apply emitted_app.
    by rewrite (handle_upload_no_items sb agents up w _ _ E Hitems). }
  destruct (result item) as [res|] eqn:Hres.
  2: { eexists. split; [|split]; [apply emitted_app | | ].
       - by rewrite (handle_upload_null sb agents up w _ _ _ _ E Hitems Hres).
       - done.
       - done. }
  destruct (agents !! agent_key_of (cr_type res)) as [agent|] eqn:Hagent.
  2: { eexists. split; [|split]; [apply emitted_app | | ].
       - by rewrite (handle_upload_no_agent sb agents up w _ _ _ _ _
                       E Hitems Hres Hagent).
       - done.
       - done. }
  destruct (extract C agent (temp_path up) (staged up w) c1)
    as [[run|e] c2] eqn:Hex.
  - eexists. split; [|split]; [apply emitted_app | | ].
    + by rewrite (handle_upload_extracted sb agents up w _ _ _ _ _ _ _ _
                    E Hitems Hres Hagent Hex).
    + cbn. by rewrite classify_calls_app, classify_calls_cards.
    + done.
  - eexists. split; [|split]; [apply emitted_app | | ].
    + by rewrite (handle_upload_extract_raises sb agents up w _ _ _ _ _ _ _ _
                    E Hitems Hres Hagent Hex).
    + done.
    + done.
Qed.

(** C8: each run of the handler makes one classification call and
    submits exactly one path, that of the temporary file; and when the
    service returns one result per submitted path, reading the first
    element of the result list succeeds and the handler goes on past
    it. *)
Theorem one_path_submitted_and_first_result_readable
    (C : Cloud) (sb : Python) agents up (w : World C) :
  classify_calls (emitted (handle_upload C sb agents up) w) =
    [[temp_path up]] /\
  (forall results c1,
     classified up w = (Ok results, c1) ->
     length (items results) = length [temp_path up] ->
     exists item,
       items results = [item] /\
       (forall w' : World C, first_item C (items results) w' = (Ok item, w')) /\
       exists ev rest,
         emitted (handle_upload C sb agents up) w = opening up ++ ev :: rest).
Proof.
  destruct (handle_upload_shape sb agents up w) as (rest & Hev & Hcalls & Hpast).
  split.
  - rewrite Hev, classify_calls_app, Hcalls. done.
  - intros results c1 E Hlen.
    destruct (items results) as [|item [|? ?]] eqn:Hitems; try discriminate.
    exists item. split; [done|]. split; [done|].
    specialize (Hpast _ _ _ _ E Hitems).
    destruct rest as [|ev rest]; [done|]. by exists ev, rest.
Qed.

(** ** Rule types and registered agents *)

Lemma rule_types_registered :
  Forall (fun rule => agent_key_of (rule_type rule) ∈ agent_definitions.*1)
         rules.
Proof. apply (bool_decide_unpack _). by vm_compute. Qed.

(** C10: once provisioning has completed, the agents mapping has an
    entry under ["{type}-extractor"] for each of the six rule types
    submitted to the classifier; so when the classifier answers with one
    of these types, the handler shows no warning and makes the extraction
    call on the agent bound to that type. *)
Theorem rule_types_always_reach_extraction
    (C : Cloud) (sb : Python) (w0 : World C) agents w1 :
  provision C w0 = (Ok agents, w1) ->
  rule_type <$> rules =
    ["invoice"; "receipt"; "resume"; "aadhaar"; "pan"; "bank"] /\
  (forall doc_type, doc_type ∈ rule_type <$> rules ->
     is_Some (agents !! (doc_type +:+ "-extractor"))) /\
  (forall up (w : World C) results c1 item rest res,
     classified up w = (Ok results, c1) ->
     items results = item :: rest ->
     result item = Some res ->
     cr_type res ∈ rule_type <$> rules ->
     existsb is_warning (emitted (handle_upload C sb agents up) w) = false /\
     exists agent,
       agents !! (cr_type res +:+ "-extractor") = Some agent /\
       EvExtract agent (temp_path up)
         ∈ emitted (handle_upload C sb agents up) w).
Proof.
  intros Hrun. destruct (provision_ok _ _ _ Hrun) as [_ Hin].
  assert (Hkeys : forall doc_type, doc_type ∈ rule_type <$> rules ->
            is_Some (agents !! agent_key_of doc_type)).
  { intros doc_type Hmem.
    apply list_elem_of_fmap in Hmem as (rule & -> & Hrule).
    pose proof (proj1 (Forall_forall _ _) rule_types_registered _ Hrule)
      as Hreg.
    apply list_elem_of_fmap in Hreg as ([n s] & Hn & Hdef). cbn in Hn.
    rewrite Hn. destruct (Hin _ _ Hdef) as (h & Hh & _). by exists h. }
  split; [reflexivity|]. split; [exact Hkeys|].
  intros up w results c1 item rest res E Hitems Hres Hty.
  destruct (Hkeys _ Hty) as [agent Hagent].
  destruct (extract C agent (temp_path up) (staged up w) c1)
    as [[run|e] c2] eqn:Hex.
  - pose proof (handle_upload_extracted sb agents up w _ _ _ _ _ _ _ _
                  E Hitems Hres Hagent Hex) as Hhandler.
    erewrite (emitted_app (handle_upload C sb agents up) w);
      [|by rewrite Hhandler].
    split.
    + cbn. by rewrite existsb_app, no_warning_in_cards.
    + exists agent. split; [done|]. find_event.
  - pose proof (handle_upload_extract_raises sb agents up w _ _ _ _ _ _ _ _
                  E Hitems Hres Hagent Hex) as Hhandler.
    erewrite (emitted_app (handle_upload C sb agents up) w);
      [|by rewrite Hhandler].
    split; [done|]. exists agent. split; [done|]. find_event.
Qed.

(** ** The handler on concrete uploads *)

Lemma null_classification_is_reported_and_cleaned_up_witness :
  classified (C := null_cloud) scan (Account.start null_cloud Account.fresh) =
    (Ok unclassified, Account.fresh) /\
  files (final (handle_upload null_cloud plain_str fresh_agents scan)
               (Account.start null_cloud Account.fresh))
    !! temp_path scan = None.
Proof.
  split; [reflexivity|].
  apply (null_classification_is_reported_and_cleaned_up null_cloud plain_str
           fresh_agents scan (Account.start null_cloud Account.fresh)
           unclassified Account.fresh (mkItem None) []);
    reflexivity.
Defined.

Lemma missing_agent_is_warned_and_cleaned_up_witness :
  fresh_agents !! "payslip-extractor" = None /\
  EvWarning "No extractor found for document type: payslip"
    ∈ emitted (handle_upload payslip_cloud plain_str fresh_agents scan)
              (Account.start payslip_cloud Account.fresh).
Proof.
  assert (Hnone : fresh_agents !! "payslip-extractor" = None)
    by (vm_compute; reflexivity).
  split; [exact Hnone|].
  apply (missing_agent_is_warned_and_cleaned_up payslip_cloud plain_str
           fresh_agents scan (Account.start payslip_cloud Account.fresh)
           (mkResults [mkItem (Some payslip)]) Account.fresh
           (mkItem (Some payslip)) [] payslip);
    [reflexivity | reflexivity | reflexivity | exact Hnone].
Defined.

Lemma remote_exception_aborts_and_leaks_temp_file_witness :
  fresh_agents !! "invoice-extractor" = Some "invoice-extractor" /\
  outcome (handle_upload overloaded_cloud plain_str fresh_agents scan)
          (Account.start overloaded_cloud Account.fresh) =
    Raise (RemoteError "rate limit exceeded") /\
  existsb is_remove
    (emitted (handle_upload overloaded_cloud plain_str fresh_agents scan)
             (Account.start overloaded_cloud Account.fresh)) = false /\
  files (final (handle_upload overloaded_cloud plain_str fresh_agents scan)
               (Account.start overloaded_cloud Account.fresh))
    !! "temp_scan.pdf" = Some (getbuffer scan).
Proof.
  assert (Hagent : fresh_agents !! "invoice-extractor" =
                   Some "invoice-extractor")
    by (vm_compute; reflexivity).
  split; [exact Hagent|].
  apply (proj1 (remote_exception_aborts_and_leaks_temp_file overloaded_cloud
                  plain_str fresh_agents scan
                  (Account.start overloaded_cloud Account.fresh))
           (mkResults [mkItem (Some invoice)]) Account.fresh
           (mkItem (Some invoice)) [] invoice "invoice-extractor"
           (RemoteError "rate limit exceeded") Account.fresh);
    [reflexivity | reflexivity | reflexivity | exact Hagent | reflexivity].
Defined.

Lemma one_path_submitted_and_first_result_readable_witness :
  length (items unclassified) = length [temp_path scan] /\
  classify_calls
    (emitted (handle_upload null_cloud plain_str fresh_agents scan)
             (Account.start null_cloud Account.fresh)) =
    [["temp_scan.pdf"]] /\
  exists item,
    items unclassified = [item] /\
    (forall w' : World null_cloud,
       first_item null_cloud (items unclassified) w' = (Ok item, w')) /\
    exists ev rest,
      emitted (handle_upload null_cloud plain_str fresh_agents scan)
              (Account.start null_cloud Account.fresh) =
        opening scan ++ ev :: rest.
Proof.
  split; [reflexivity|]. split.
  - apply (proj1 (one_path_submitted_and_first_result_readable null_cloud
                    plain_str fresh_agents scan
                    (Account.start null_cloud Account.fresh))).
  - apply (proj2 (one_path_submitted_and_first_result_readable null_cloud
                    plain_str fresh_agents scan
                    (Account.start null_cloud Account.fresh))
             unclassified Account.fresh);
      reflexivity.
Defined.

Lemma rule_types_always_reach_extraction_witness :
  provision invoice_cloud (Account.start invoice_cloud Account.fresh) =
    (Ok fresh_agents,
     (provision invoice_cloud (Account.start invoice_cloud Account.fresh)).2) /\
  existsb is_warning
    (emitted (handle_upload invoice_cloud plain_str fresh_agents scan)
             (Account.start invoice_cloud Account.fresh)) = false /\
  exists agent,
    fresh_agents !! "invoice-extractor" = Some agent /\
    EvExtract agent "temp_scan.pdf"
      ∈ emitted (handle_upload invoice_cloud plain_str fresh_agents scan)
                (Account.start invoice_cloud Account.fresh).
Proof.
  assert (E : provision invoice_cloud
                (Account.start invoice_cloud Account.fresh) =
              (Ok fresh_agents,
               (provision invoice_cloud
                  (Account.start invoice_cloud Account.fresh)).2))
    by (vm_compute; reflexivity).
  split; [exact E|].
  apply (proj2 (proj2 (rule_types_always_reach_extraction invoice_cloud
                         plain_str _ fresh_agents _ E))
           scan (Account.start invoice_cloud Account.fresh)
           (mkResults [mkItem (Some invoice)]) Account.fresh
           (mkItem (Some invoice)) [] invoice);
    [reflexivity | reflexivity | reflexivity | find_event].
Defined.

(** ** The card renderer *)

Lemma append_assoc (a b c : string) : (a +:+ b) +:+ c = a +:+ (b +:+ c).
Proof.
  induction a as [|x a IH]; [done|].
  change (String x ((a +:+ b) +:+ c) = String x (a +:+ (b +:+ c))).
  by rewrite IH.
Qed.

(** Joining from the left, as [Str.join] does, gives the text that
    [String.concat] builds from the right. *)
Lemma join_onto_concat (sep acc x : string) (rest : list string) :
  Str.join_onto acc sep (x :: rest) =
    acc +:+ sep +:+ String.concat sep (x :: rest).
Proof.
  revert acc x. induction rest as [|y rest IH]; intros acc x; [done|].
  change (Str.join_onto (acc +:+ sep +:+ x) sep (y :: rest) =
          acc +:+ sep +:+ x +:+ sep +:+ String.concat sep (y :: rest)).
  rewrite IH. by rewrite !append_assoc.
Qed.

Lemma join_concat (sep : string) (items : list string) :
  Str.join sep items = String.concat sep items.
Proof.
  destruct items as [|x [|y rest]]; [done | done |].
  change (Str.join_onto x sep (y :: rest) =
          x +:+ sep +:+ String.concat sep (y :: rest)).
  apply join_onto_concat.
Qed.

Lemma card_is_card_text sb entry :
  card sb entry = Card (card_text sb entry).1 (card_text sb entry).2.
Proof. destruct entry as [key []]; reflexivity. Qed.

Lemma cards_shown_app {H} (l1 l2 : list (Event H)) :
  cards_shown (l1 ++ l2) = cards_shown l1 ++ cards_shown l2.
Proof.
  induction l1 as [|ev l1 IH]; [done|].
  destruct ev as [| | | | | | | | | | | |[]]; cbn; by rewrite ?IH.
Qed.

Lemma cards_shown_entries {H} sb (entries : Dict) :
  cards_shown ((fun entry => @EvMarkdown H (card sb entry)) <$> entries) =
    card_text sb <$> entries.
Proof.
  induction entries as [|entry rest IH]; [done|].
  cbn. rewrite card_is_card_text. cbn. by rewrite IH.
Qed.

(** One card per entry, in the order of the entries. *)
Lemma render_cards_shows {C : Cloud} sb (entries : Dict) (w : World C) :
  outcome (render_cards C sb entries) w = Ok tt /\
  cards_shown (emitted (render_cards C sb entries) w) =
    card_text sb <$> entries.
Proof.
  unfold outcome. rewrite render_cards_run. split; [done|].
  erewrite emitted_app; [|by rewrite render_cards_run].
  cbn. rewrite cards_shown_app, cards_shown_entries. cbn.
  by rewrite app_nil_r.
Qed.

(** C6: for a field whose value is a list, the card shown for that field
    carries one string: the [str] forms of the list's elements, in the
    order of the list, joined by the separator ["<br>"]. *)
Theorem list_field_is_joined_in_order
    (C : Cloud) (sb : Python) (entries : Dict) (w : World C)
    (i : nat) (key : string) (vs : list Value) :
  entries !! i = Some (key, VList vs) ->
  exists title,
    cards_shown (emitted (render_cards C sb entries) w) !! i =
      Some (title, String.concat "<br>" (List.map (str sb) vs)).
Proof.
  intros Hi. destruct (render_cards_shows sb entries w) as [_ ->].
  rewrite list_lookup_fmap, Hi, <- join_concat. eexists. reflexivity.
Qed.

Lemma list_field_is_joined_in_order_witness :
  invoice_data !! 3%nat = Some ("items", VList items_field) /\
  exists title,
    cards_shown
      (emitted (render_cards invoice_cloud plain_str invoice_data)
               (Account.start invoice_cloud Account.fresh)) !! 3%nat =
      Some (title, "pen<br>2<br>ink").
Proof.
  split; [reflexivity|].
  exact (list_field_is_joined_in_order invoice_cloud plain_str
           invoice_data (Account.start invoice_cloud Account.fresh)
           3 "items" items_field eq_refl).
Defined.

(** *** Card titles *)

(** One step of [Str.ascii_title]. *)
Lemma title_from_cons (cased : bool) (c : ascii) (rest : string) :
  Str.title_from cased (String c rest) =
    String (if Str.is_alpha c then
              if cased then Str.to_lower c else Str.to_upper c
            else c)
           (Str.title_from (Str.is_alpha c) rest).
Proof.
  cbn [Str.title_from]. unfold Str.is_alpha, Str.to_lower, Str.to_upper.
  destruct (Str.is_lower c) eqn:Hl, (Str.is_upper c) eqn:Hu; cbn;
    try reflexivity.
  exfalso. unfold Str.is_lower, Str.is_upper in *.
  apply andb_true_iff in Hl as [Hl _]. apply andb_true_iff in Hu as [_ Hu].
  apply Nat.leb_le in Hl, Hu. lia.
Qed.

Lemma replace_underscore_alpha (c : ascii) :
  Str.is_alpha (if Ascii.eqb c "_" then " "%char else c) = Str.is_alpha c.
Proof.
  destruct (Ascii.eqb_spec c "_") as [->|]; reflexivity.
Qed.

Lemma spaced_title_char (c : ascii) (cased : bool) :
  (let c' := if Ascii.eqb c "_" then " "%char else c in
   if Str.is_alpha c then
     if cased then Str.to_lower c' else Str.to_upper c'
   else c') = display_char cased c.
Proof.
  unfold display_char. destruct (Ascii.eqb_spec c "_") as [->|]; reflexivity.
Qed.

(** Position by position, the title computed by the renderer is the one
    the specification describes. *)
Lemma spaced_title_get (s : string) :
  forall (cased : bool) (j : nat) (c : ascii),
    String.get j s = Some c ->
    String.get j (Str.title_from cased (Str.replace "_" " " s)) =
      Some (display_char
              (match j with O => cased | S _ => after_letter s j end) c).
Proof.
  induction s as [|a s IH]; intros cased j c Hget; [by destruct j|].
  cbn [Str.replace]. rewrite title_from_cons.
  rewrite replace_underscore_alpha.
  destruct j as [|k].
  - cbn in Hget. injection Hget as <-. cbn [String.get].
    f_equal. apply spaced_title_char.
  - cbn [String.get] in *. rewrite (IH _ _ _ Hget). f_equal.
    destruct k as [|k']; reflexivity.
Qed.

Lemma spaced_title_length (s : string) (cased : bool) :
  String.length (Str.title_from cased (Str.replace "_" " " s)) =
    String.length s.
Proof.
  revert cased. induction s as [|a s IH]; intros cased; [done|].
  cbn [Str.replace]. rewrite title_from_cons. cbn. by rewrite IH.
Qed.

Lemma is_ascii_replace (old new : ascii) (s : string) :
  (nat_of_ascii old <? 128)%nat = true ->
  (nat_of_ascii new <? 128)%nat = true ->
  Str.is_ascii (Str.replace old new s) = Str.is_ascii s.
Proof.
  intros Hold Hnew. induction s as [|c s IH]; [done|].
  cbn [Str.replace Str.is_ascii]. rewrite IH. f_equal.
  destruct (Ascii.eqb_spec c old) as [->|]; [|done]. by rewrite Hold, Hnew.
Qed.

(** On the ASCII text the script gets from an ASCII name, [s.title()] is
    the computed title. *)
Lemma str_title_of_replaced (sb : Python) (old new : ascii) (s : string) :
  (nat_of_ascii old <? 128)%nat = true ->
  (nat_of_ascii new <? 128)%nat = true ->
  Str.is_ascii s = true ->
  str_title sb (Str.replace old new s) =
    Str.title_from false (Str.replace old new s).
Proof.
  intros Hold Hnew Hs. unfold str_title.
  by rewrite (is_ascii_replace _ _ _ Hold Hnew), Hs.
Qed.

(** C7: for every field name, the card of the field is titled with the
    name in which every underscore has become a space and which is then
    put in title case by [s.title()]. For a name of ASCII characters the
    title is, character by character: the title has the length of the
    name, and at each position an underscore shows as a space, a letter
    is upper case when it starts a word (the character before it is not a
    letter) and lower case otherwise, and any other character is
    unchanged. *)
Theorem card_title_is_spaced_title_case
    (C : Cloud) (sb : Python) (entries : Dict) (w : World C)
    (i : nat) (key : string) (value : Value) :
  entries !! i = Some (key, value) ->
  exists title body,
    cards_shown (emitted (render_cards C sb entries) w) !! i =
      Some (title, body) /\
    title = str_title sb (Str.replace "_" " " key) /\
    (Str.is_ascii key = true ->
       String.length title = String.length key /\
       (forall j c, String.get j key = Some c ->
          String.get j title = Some (display_char (after_letter key j) c))).
Proof.
  intros Hi. destruct (render_cards_shows sb entries w) as [_ ->].
  rewrite list_lookup_fmap, Hi.
  eexists _, _. split; [reflexivity|]. cbn [fst]. split; [reflexivity|].
  intros Hascii.
  rewrite (str_title_of_replaced sb "_" " " key eq_refl eq_refl Hascii).
  split; [apply spaced_title_length|].
  intros j c Hget.
  rewrite (spaced_title_get _ _ _ _ Hget). by destruct j.
Qed.

Lemma card_title_is_spaced_title_case_witness :
  invoice_data !! 0%nat = Some ("invoice_number", VStr "INV-001") /\
  Str.is_ascii "invoice_number" = true /\
  exists title body,
    cards_shown
      (emitted (render_cards invoice_cloud plain_str invoice_data)
               (Account.start invoice_cloud Account.fresh)) !! 0%nat =
      Some (title, body) /\
    title = "Invoice Number" /\
    String.length title = String.length "invoice_number" /\
    (forall j c, String.get j "invoice_number" = Some c ->
       String.get j title =
         Some (display_char (after_letter "invoice_number" j) c)).
Proof.
  split; [reflexivity|]. split; [reflexivity|].
  destruct (card_title_is_spaced_title_case invoice_cloud plain_str
              invoice_data (Account.start invoice_cloud Account.fresh)
              0 "invoice_number" (VStr "INV-001") eq_refl)
    as (title & body & Hshown & Htitle & Hascii).
  exists title, body. split; [exact Hshown|]. split; [exact Htitle|].
  exact (Hascii eq_refl).
Defined.

(** The scenario of the specification: an invoice with four fields. *)
Example invoice_scenario :
  outcome (handle_upload invoice_cloud plain_str fresh_agents scan)
          (Account.start invoice_cloud Account.fresh) = Ok tt /\
  cards_shown
    (emitted (handle_upload invoice_cloud plain_str fresh_agents scan)
             (Account.start invoice_cloud Account.fresh)) =
    [ ("Invoice Number", "INV-001"); ("Date", "2024-01-01");
      ("Total", "<object>"); ("Items", "pen<br>2<br>ink") ] /\
  files (final (handle_upload invoice_cloud plain_str fresh_agents scan)
               (Account.start invoice_cloud Account.fresh)) = ∅.
Proof. vm_compute. repeat split. Qed.

Example title_of_mixed_name :
  Str.ascii_title (Str.replace "_" " " "pan_number2b_ID") = "Pan Number2B Id".
Proof. reflexivity. Qed.

(** * Further properties of the script *)

(** ** The calls of the provisioning loop *)

Section ProvisioningCalls.

Context {C : Cloud}.

Implicit Types (w : World C) (agents : gmap string (handle C)).

Lemma fetch_calls_app {H} (l1 l2 : list (Event H)) :
  fetch_calls (l1 ++ l2) = fetch_calls l1 ++ fetch_calls l2.
Proof.
  induction l1 as [|ev l1 IH]; [done|]. destruct ev; cbn; by rewrite ?IH.
Qed.

Lemma create_calls_app {H} (l1 l2 : list (Event H)) :
  create_calls (l1 ++ l2) = create_calls l1 ++ create_calls l2.
Proof.
  induction l1 as [|ev l1 IH]; [done|]. destruct ev; cbn; by rewrite ?IH.
Qed.

(** What one provisioning step adds to the trace, and that it leaves the
    local files alone. *)
Lemma ensure_agent_step agent_name schema agents w :
  exists evs,
    trace (ensure_agent C agent_name schema agents w).2 = trace w ++ evs /\
    files (ensure_agent C agent_name schema agents w).2 = files w /\
    (evs = [EvGetAgent agent_name] \/
     evs = [EvGetAgent agent_name; EvCreateAgent agent_name schema]).
Proof.
  destruct (get_agent C agent_name (cloud w)) as [[h|e] c1] eqn:E.
  - rewrite (ensure_agent_fetched _ _ _ _ _ _ E). eexists. cbn. eauto.
  - rewrite (ensure_agent_fallback _ _ _ _ _ _ E). eexists. cbn. eauto.
Qed.

Lemma provision_loop_app before after agents w :
  provision_loop C (before ++ after) agents w =
    (provision_loop C before agents ≫= provision_loop C after) w.
Proof.
  revert agents w. induction before as [|[n s] before IH]; intros agents w.
  - reflexivity.
  - rewrite <- app_comm_cons. cbn [provision_loop].
    unfold mbind, M_bind in *.
    destruct (ensure_agent C n s agents w) as [[agents1|e] w1]; [|done].
    apply IH.
Qed.

(** The trace of a loop run: only agent calls, the fetches follow the
    table, a create only for an entry of the table. *)
Lemma provision_loop_calls defs :
  forall agents w,
    exists evs,
      trace (provision_loop C defs agents w).2 = trace w ++ evs /\
      files (provision_loop C defs agents w).2 = files w /\
      forallb is_agent_call evs = true /\
      fetch_calls evs `prefix_of` defs.*1 /\
      create_calls evs `sublist_of` defs /\
      (forall agents', (provision_loop C defs agents w).1 = Ok agents' ->
         fetch_calls evs = defs.*1).
Proof.
  induction defs as [|[n s] rest IH]; intros agents w.
  - exists []. cbn. rewrite app_nil_r.
    repeat split; [apply prefix_nil | apply sublist_nil_l].
  - cbn [provision_loop]. unfold mbind, M_bind.
    destruct (ensure_agent_step n s agents w) as (evs1 & Htr & Hfs & Hevs).
    destruct (ensure_agent C n s agents w) as [[agents1|e] w1] eqn:E1;
      cbn in Htr, Hfs.
    + destruct (IH agents1 w1) as (evs2 & Htr2 & Hfs2 & Hall & Hpre & Hsub & Hok).
      exists (evs1 ++ evs2). rewrite Htr2, Htr, Hfs2, Hfs, app_assoc.
      rewrite forallb_app, fetch_calls_app, create_calls_app, Hall.
      split; [done|]. split; [done|].
      destruct Hevs as [-> | ->]; cbn.
      * repeat split; [by apply prefix_cons | by apply sublist_cons|].
        intros agents' Hres. by rewrite (Hok _ Hres).
      * repeat split; [by apply prefix_cons | by apply sublist_skip|].
        intros agents' Hres. by rewrite (Hok _ Hres).
    + exists evs1. cbn. split; [done|]. split; [done|].
      destruct Hevs as [-> | ->]; cbn.
      * repeat split; [apply prefix_cons, prefix_nil | apply sublist_nil_l |].
        discriminate.
      * repeat split;
          [apply prefix_cons, prefix_nil | apply sublist_skip, sublist_nil_l |].
        discriminate.
Qed.

End ProvisioningCalls.

(** X1: when the provisioning loop completes, it has fetched every name
    of the table once, in the order of the table; each create call is for
    an entry of the table, with that entry's schema and in the order of
    the table; it has made no other call and the local files are as
    before. *)
Theorem provisioning_calls_follow_the_table
    (C : Cloud) (w : World C) agents w' :
  provision C w = (Ok agents, w') ->
  fetch_calls (emitted (provision C) w) = agent_definitions.*1 /\
  create_calls (emitted (provision C) w) `sublist_of` agent_definitions /\
  forallb is_agent_call (emitted (provision C) w) = true /\
  files w' = files w.
Proof.
  intros Hrun. unfold provision in *.
  destruct (provision_loop_calls agent_definitions ∅ w)
    as (evs & Htr & Hfs & Hall & _ & Hsub & Hok).
  rewrite (emitted_app _ _ _ Htr). rewrite Hrun in Hfs, Hok.
  repeat split; [by apply (Hok agents) | done | done | done].
Qed.

Lemma provisioning_calls_follow_the_table_witness :
  provision idle_cloud fresh_world =
    (Ok fresh_agents, (provision idle_cloud fresh_world).2) /\
  fetch_calls (emitted (provision idle_cloud) fresh_world) =
    agent_definitions.*1.
Proof.
  assert (E : provision idle_cloud fresh_world =
              (Ok fresh_agents, (provision idle_cloud fresh_world).2))
    by (vm_compute; reflexivity).
  split; [exact E|].
  apply (provisioning_calls_follow_the_table idle_cloud fresh_world
           fresh_agents _ E).
Defined.

(** X2: when, for some entry of the table, the fetch raises and the
    create raises too, the loop ends there with the exception of the
    create: its calls are those made for the entries before, then the
    fetch and the create of that entry, and nothing is fetched or created
    for the entries after it. *)
Theorem create_failure_stops_provisioning
    (C : Cloud) before agent_name schema after agents (w : World C)
    agents1 w1 e1 c1 e c2 :
  provision_loop C before agents w = (Ok agents1, w1) ->
  get_agent C agent_name (cloud w1) = (Raise e1, c1) ->
  create_agent C agent_name schema c1 = (Raise e, c2) ->
  outcome (provision_loop C (before ++ (agent_name, schema) :: after) agents)
          w = Raise e /\
  emitted (provision_loop C (before ++ (agent_name, schema) :: after) agents)
          w =
    emitted (provision_loop C before agents) w ++
    [EvGetAgent agent_name; EvCreateAgent agent_name schema].
Proof.
  intros Hbefore Hget Hcreate.
  destruct (provision_loop_calls before agents w) as (evs & Htr & _).
  rewrite (emitted_app _ _ _ Htr). rewrite Hbefore in Htr. cbn in Htr.
  assert (Hrun : provision_loop C (before ++ (agent_name, schema) :: after)
                   agents w =
                 (Raise e,
                  mkWorld c2 (files w1)
                    (trace w1 ++ [EvGetAgent agent_name;
                                  EvCreateAgent agent_name schema]))).
  { rewrite provision_loop_app. rewrite (bind_ok _ _ _ _ _ Hbefore).
    cbn [provision_loop].
    apply bind_raise. rewrite (ensure_agent_fallback _ _ _ _ _ _ Hget).
    by rewrite Hcreate. }
  unfold outcome. rewrite Hrun. split; [done|].
  apply emitted_app. rewrite Hrun. cbn. by rewrite Htr, app_assoc.
Qed.

Lemma create_failure_stops_provisioning_witness :
  outcome (provision small_cloud) small_world =
    Raise (RemoteError "agent quota exceeded") /\
  fetch_calls (emitted (provision small_cloud) small_world) =
    ["invoice-extractor"; "receipt-extractor"; "resume-extractor"].
Proof.
  pose proof (create_failure_stops_provisioning small_cloud
                [("invoice-extractor", Invoice);
                 ("receipt-extractor", Receipt)]
                "resume-extractor" Resume
                [("aadhaar-extractor", AadhaarCard);
                 ("pan-extractor", PANCard);
                 ("bank-extractor", BankStatement);
                 ("coverletter-extractor", CoverLetter);
                 ("labreport-extractor", LabReport);
                 ("prescription-extractor", Prescription);
                 ("medicalrecord-extractor", MedicalRecord)]
                ∅ small_world _ _ _ _ _ _
                eq_refl eq_refl eq_refl) as [Hout Hev].
  split; [exact Hout|].
  change (provision small_cloud) with
    (provision_loop small_cloud
       ([("invoice-extractor", Invoice); ("receipt-extractor", Receipt)] ++
        ("resume-extractor", Resume) ::
        [("aadhaar-extractor", AadhaarCard);
         ("pan-extractor", PANCard);
         ("bank-extractor", BankStatement);
         ("coverletter-extractor", CoverLetter);
         ("labreport-extractor", LabReport);
         ("prescription-extractor", Prescription);
         ("medicalrecord-extractor", MedicalRecord)]) ∅).
  rewrite Hev. reflexivity.
Defined.

(** ** Every path of the upload handler *)

Lemma extract_calls_app {H} (l1 l2 : list (Event H)) :
  extract_calls (l1 ++ l2) = extract_calls l1 ++ extract_calls l2.
Proof.
  induction l1 as [|ev l1 IH]; [done|]. destruct ev; cbn; by rewrite ?IH.
Qed.

Lemma extract_calls_cards {H} (sb : Python) (entries : Dict) :
  extract_calls ((fun entry => @EvMarkdown H (card sb entry)) <$> entries)
    = [].
Proof. induction entries as [|entry rest IH]; [done|]. by cbn. Qed.

Lemma no_agent_call_in_cards {H} (sb : Python) (entries : Dict) :
  existsb is_agent_call
    ((fun entry => @EvMarkdown H (card sb entry)) <$> entries) = false.
Proof. induction entries as [|entry rest IH]; [done|]. by cbn. Qed.

(** The six ways a run of the handler can go, each with the equation of
    its run in [Hrun]. *)
Ltac handler_cases sb agents up w :=
  let results := fresh "results" in
  let item := fresh "item" in
  let others := fresh "others" in
  let res := fresh "res" in
  let agent := fresh "agent" in
  let run := fresh "run" in
  let e := fresh "e" in
  let c1 := fresh "c1" in
  let c2 := fresh "c2" in
  destruct (classified up w) as [[results|e] c1] eqn:Hclassified;
  [ destruct (items results) as [|item others] eqn:Hitems;
    [ pose proof (handle_upload_no_items sb agents up w _ _
                    Hclassified Hitems) as Hrun
    | destruct (result item) as [res|] eqn:Hres;
      [ destruct (agents !! agent_key_of (cr_type res)) as [agent|]
          eqn:Hagent;
        [ destruct (extract _ agent (temp_path up) (staged up w) c1)
            as [[run|e] c2] eqn:Hextract;
          [ pose proof (handle_upload_extracted sb agents up w
                          _ _ _ _ _ _ _ _
                          Hclassified Hitems Hres Hagent Hextract) as Hrun
          | pose proof (handle_upload_extract_raises sb agents up w
                          _ _ _ _ _ _ _ _
                          Hclassified Hitems Hres Hagent Hextract) as Hrun ]
        | pose proof (handle_upload_no_agent sb agents up w _ _ _ _ _
                        Hclassified Hitems Hres Hagent) as Hrun ]
      | pose proof (handle_upload_null sb agents up w _ _ _ _
                      Hclassified Hitems Hres) as Hrun ] ]
  | pose proof (handle_upload_classify_raises sb agents up w _ _
                  Hclassified) as Hrun ].

(** Rewrites outcome, final world and emitted events with the equation
    of the run. *)
Ltac read_run Hrun :=
  unfold outcome, final;
  erewrite emitted_app by (rewrite Hrun; reflexivity);
  rewrite Hrun; cbn [fst snd files cloud trace].

(** X3: when the classifier returns an empty result list, reading its
    first element raises [IndexError]: the handler ends with it right
    after the classification call, shows neither error nor warning, and
    the temporary file stays on disk. *)
Theorem empty_result_list_raises_index_error
    (C : Cloud) (sb : Python) agents up (w : World C) results c1 :
  classified up w = (Ok results, c1) ->
  items results = [] ->
  outcome (handle_upload C sb agents up) w = Raise IndexError /\
  emitted (handle_upload C sb agents up) w = opening up /\
  files (final (handle_upload C sb agents up) w) !! temp_path up =
    Some (getbuffer up).
Proof.
  intros E Hitems.
  pose proof (handle_upload_no_items sb agents up w _ _ E Hitems) as Hrun.
  read_run Hrun. repeat split. apply lookup_insert_eq.
Qed.

(** X4: when the classifier names a type that has an agent and the
    extraction returns, the handler ends normally: it has called the
    extraction once, on that agent and on the temporary file, shown the
    heading and one card per field of the returned data, in the order of
    the fields, and its last act is the removal of the temporary file. *)
Theorem successful_extraction_shows_every_field
    (C : Cloud) (sb : Python) agents up (w : World C)
    results c1 item rest res agent run c2 :
  classified up w = (Ok results, c1) ->
  items results = item :: rest ->
  result item = Some res ->
  agents !! agent_key_of (cr_type res) = Some agent ->
  extract C agent (temp_path up) (staged up w) c1 = (Ok run, c2) ->
  outcome (handle_upload C sb agents up) w = Ok tt /\
  extract_calls (emitted (handle_upload C sb agents up) w) =
    [(agent, temp_path up)] /\
  EvMarkdown (DataHeading (data_heading sb (cr_type res)))
    ∈ emitted (handle_upload C sb agents up) w /\
  cards_shown (emitted (handle_upload C sb agents up) w) =
    card_text sb <$> data run /\
  last (emitted (handle_upload C sb agents up) w) =
    Some (EvRemove (temp_path up)) /\
  files (final (handle_upload C sb agents up) w) !! temp_path up = None.
Proof.
  intros E Hitems Hres Hagent Hex.
  pose proof (handle_upload_extracted sb agents up w _ _ _ _ _ _ _ _
                E Hitems Hres Hagent Hex) as Hrun.
  read_run Hrun. split; [done|]. split; [|split; [|split; [|split]]].
  - cbn. by rewrite extract_calls_app, extract_calls_cards.
  - find_event.
  - cbn. rewrite cards_shown_app, cards_shown_entries. cbn.
    by rewrite app_nil_r.
  - rewrite !app_assoc.
    change [EvMarkdown CardsClose; EvRemove (temp_path up)]
      with ([@EvMarkdown (handle C) CardsClose] ++ [EvRemove (temp_path up)]).
    rewrite app_assoc. apply last_snoc.
  - apply lookup_delete_eq.
Qed.

Lemma empty_result_list_raises_index_error_witness :
  classified (C := silent_cloud) scan
    (Account.start silent_cloud Account.fresh) =
    (Ok (mkResults []), Account.fresh) /\
  outcome (handle_upload silent_cloud plain_str fresh_agents scan)
          (Account.start silent_cloud Account.fresh) = Raise IndexError.
Proof.
  split; [reflexivity|].
  apply (empty_result_list_raises_index_error silent_cloud plain_str
           fresh_agents scan (Account.start silent_cloud Account.fresh)
           (mkResults []) Account.fresh);
    reflexivity.
Defined.

Lemma successful_extraction_shows_every_field_witness :
  fresh_agents !! agent_key_of "invoice" = Some "invoice-extractor" /\
  cards_shown
    (emitted (handle_upload invoice_cloud plain_str fresh_agents scan)
             (Account.start invoice_cloud Account.fresh)) =
    [ ("Invoice Number", "INV-001"); ("Date", "2024-01-01");
      ("Total", "<object>"); ("Items", "pen<br>2<br>ink") ].
Proof.
  assert (Hagent : fresh_agents !! agent_key_of "invoice" =
                   Some "invoice-extractor")
    by (vm_compute; reflexivity).
  split; [exact Hagent|].
  apply (successful_extraction_shows_every_field invoice_cloud plain_str
           fresh_agents scan (Account.start invoice_cloud Account.fresh)
           (mkResults [mkItem (Some invoice)]) Account.fresh
           (mkItem (Some invoice)) [] invoice "invoice-extractor"
           (mkRun invoice_data) Account.fresh);
    [reflexivity | reflexivity | reflexivity | exact Hagent | reflexivity].
Defined.

(** X5: a run of the handler changes no local file but the one at the
    temporary path, and when the run ends normally that path is free,
    also if a file was there before the upload. *)
Theorem handler_touches_only_the_temp_file
    (C : Cloud) (sb : Python) agents up (w : World C) :
  (forall path, path <> temp_path up ->
     files (final (handle_upload C sb agents up) w) !! path =
       files w !! path) /\
  (outcome (handle_upload C sb agents up) w = Ok tt ->
     files (final (handle_upload C sb agents up) w) =
       delete (temp_path up) (files w)).
Proof.
  unfold staged in *.
  handler_cases sb agents up w; unfold outcome, final; rewrite Hrun;
    cbn [fst snd files]; unfold staged;
    (split; [intros path Hpath | intros Hok]);
    try discriminate;
    try (by rewrite lookup_insert_ne);
    try (by rewrite lookup_delete_ne, lookup_insert_ne);
    by rewrite delete_insert_eq.
Qed.

Lemma handler_touches_only_the_temp_file_witness :
  outcome (handle_upload invoice_cloud plain_str fresh_agents scan)
          cluttered_world = Ok tt /\
  files (final (handle_upload invoice_cloud plain_str fresh_agents scan)
               cluttered_world) =
    delete (temp_path scan) (files cluttered_world).
Proof.
  assert (Hok : outcome (handle_upload invoice_cloud plain_str fresh_agents
                           scan) cluttered_world = Ok tt)
    by (vm_compute; reflexivity).
  split; [exact Hok|].
  apply (proj2 (handler_touches_only_the_temp_file invoice_cloud
                  plain_str fresh_agents scan cluttered_world)).
  exact Hok.
Defined.

(** X6: the handler leaves provisioning alone: no run of it fetches or
    creates an agent. Its extraction calls are exactly the one the
    classification calls for: when the classifier returns, its first
    result is not null and the key of that result's type is bound in the
    agents mapping, one call, on the temporary file and on the agent
    bound under that key; in every other case none. *)
Theorem handler_extracts_exactly_for_the_classified_type
    (C : Cloud) (sb : Python) agents up (w : World C) :
  existsb is_agent_call (emitted (handle_upload C sb agents up) w) = false /\
  extract_calls (emitted (handle_upload C sb agents up) w) =
    expected_extraction agents up w /\
  (length (extract_calls (emitted (handle_upload C sb agents up) w)) <= 1)%nat.
Proof.
  unfold expected_extraction.
  handler_cases sb agents up w;
    (erewrite emitted_app by (rewrite Hrun; reflexivity));
    rewrite ?Hitems, ?Hres; unfold agent_key_of in *; rewrite ?Hagent; cbn;
    rewrite ?existsb_app, ?extract_calls_app, ?no_agent_call_in_cards,
      ?extract_calls_cards; cbn;
    repeat split; lia.
Qed.

(** ** One run of the whole script *)

Section WholeScript.

Context {C : Cloud} (sb : Python).

Implicit Types (w : World C) (agents : gmap string (handle C)).

Lemma app_after_provision uploaded_file w agents w1 :
  provision C w = (Ok agents, w1) ->
  app C sb uploaded_file w =
    match uploaded_file with
    | Some f => handle_upload C sb agents f (served w1)
    | None => (Ok tt, served w1)
    end.
Proof.
  intros Hprov. unfold app. rewrite (bind_ok _ _ _ _ _ Hprov).
  unfold mbind, M_bind, st_markdown, emit, served, page_events. cbn.
  rewrite <- !app_assoc. cbn. by destruct uploaded_file.
Qed.

Lemma app_provision_raises uploaded_file w e w1 :
  provision C w = (Raise e, w1) ->
  app C sb uploaded_file w = (Raise e, w1).
Proof. intros Hprov. unfold app. by apply bind_raise. Qed.

Lemma agent_calls_only (evs : list (Event (handle C))) :
  forallb is_agent_call evs = true ->
  classify_calls evs = [] /\ extract_calls evs = [] /\ cards_shown evs = [].
Proof.
  induction evs as [|ev evs IH]; [done|].
  destruct ev; cbn; try discriminate; exact IH.
Qed.

Lemma rule_type_has_agent w agents w1 doc_type :
  provision C w = (Ok agents, w1) ->
  doc_type ∈ rule_type <$> rules ->
  is_Some (agents !! agent_key_of doc_type).
Proof.
  intros Hprov Hmem. destruct (provision_ok _ _ _ Hprov) as [_ Hin].
  apply list_elem_of_fmap in Hmem as (rule & -> & Hrule).
  pose proof (proj1 (Forall_forall _ _) rule_types_registered _ Hrule) as Hreg.
  apply list_elem_of_fmap in Hreg as ([n s] & Hn & Hdef). cbn in Hn.
  rewrite Hn. destruct (Hin _ _ Hdef) as (h & Hh & _). by exists h.
Qed.

End WholeScript.

(** X7: a run of the script without an upload, once provisioning has
    completed, ends normally after showing the page: beyond the calls of
    the provisioning loop it makes no classification and no extraction
    call, and it leaves the local files as they were. *)
Theorem page_without_upload_only_provisions
    (C : Cloud) (sb : Python) (w : World C) agents w1 :
  provision C w = (Ok agents, w1) ->
  outcome (app C sb None) w = Ok tt /\
  emitted (app C sb None) w = emitted (provision C) w ++ page_events /\
  classify_calls (emitted (app C sb None) w) = [] /\
  extract_calls (emitted (app C sb None) w) = [] /\
  files (final (app C sb None) w) = files w.
Proof.
  intros Hprov.
  destruct (provision_loop_calls agent_definitions ∅ w)
    as (evs & Htr & Hfs & Hall & _).
  fold (provision C) in Htr, Hfs.
  pose proof (app_after_provision sb None w _ _ Hprov) as Hrun.
  rewrite (emitted_app (provision C) _ _ Htr).
  rewrite Hprov in Htr, Hfs. cbn in Htr, Hfs.
  assert (Hev : emitted (app C sb None) w = evs ++ page_events).
  { apply emitted_app. rewrite Hrun. cbn. by rewrite Htr, app_assoc. }
  rewrite Hev. unfold outcome, final. rewrite Hrun. cbn.
  destruct (agent_calls_only _ Hall) as (Hc & Hx & _).
  rewrite classify_calls_app, extract_calls_app, Hc, Hx. done.
Qed.

Lemma page_without_upload_only_provisions_witness :
  provision idle_cloud fresh_world =
    (Ok fresh_agents, (provision idle_cloud fresh_world).2) /\
  outcome (app idle_cloud plain_str None) fresh_world = Ok tt.
Proof.
  assert (E : provision idle_cloud fresh_world =
              (Ok fresh_agents, (provision idle_cloud fresh_world).2))
    by (vm_compute; reflexivity).
  split; [exact E|].
  apply (page_without_upload_only_provisions idle_cloud plain_str
           fresh_world fresh_agents _ E).
Defined.

(** X8: when provisioning ends with an exception, the script ends with
    the same exception before it shows anything: the only events of the
    run are agent calls, the upload, if there is one, is never written to
    disk, and the local files are as before. *)
Theorem failed_provisioning_shows_no_page
    (C : Cloud) (sb : Python) uploaded_file (w : World C) e :
  outcome (provision C) w = Raise e ->
  outcome (app C sb uploaded_file) w = Raise e /\
  forallb is_agent_call (emitted (app C sb uploaded_file) w) = true /\
  files (final (app C sb uploaded_file) w) = files w.
Proof.
  unfold outcome. intros Hout.
  destruct (provision C w) as [r w1] eqn:Hprov. cbn in Hout. subst r.
  destruct (provision_loop_calls agent_definitions ∅ w)
    as (evs & Htr & Hfs & Hall & _).
  fold (provision C) in Htr, Hfs. rewrite Hprov in Htr, Hfs.
  pose proof (app_provision_raises sb uploaded_file w _ _ Hprov) as Hrun.
  unfold final. erewrite emitted_app by (rewrite Hrun; exact Htr).
  by rewrite Hrun.
Qed.

Lemma failed_provisioning_shows_no_page_witness :
  outcome (provision small_cloud) small_world =
    Raise (RemoteError "agent quota exceeded") /\
  outcome (app small_cloud plain_str (Some scan)) small_world =
    Raise (RemoteError "agent quota exceeded") /\
  files (final (app small_cloud plain_str (Some scan)) small_world) = ∅.
Proof.
  assert (E : outcome (provision small_cloud) small_world =
              Raise (RemoteError "agent quota exceeded"))
    by reflexivity.
  split; [exact E|].
  destruct (failed_provisioning_shows_no_page small_cloud plain_str
              (Some scan) small_world _ E) as (Hout & _ & Hfiles).
  split; [exact Hout | exact Hfiles].
Defined.

(** X9: from start to end. When provisioning completes, the classifier
    answers with one of the rule types and the extraction on the agent of
    that type returns, the whole run ends normally, the cards shown are
    those of the fields of the returned data, in order, and the local
    files are as before the run, less whatever was at the temporary
    path. *)
Theorem upload_is_extracted_end_to_end
    (C : Cloud) (sb : Python) up (w : World C) agents w1
    results c1 item rest res run c2 :
  provision C w = (Ok agents, w1) ->
  classified up w1 = (Ok results, c1) ->
  items results = item :: rest ->
  result item = Some res ->
  cr_type res ∈ rule_type <$> rules ->
  (forall agent, agents !! agent_key_of (cr_type res) = Some agent ->
     extract C agent (temp_path up) (staged up w1) c1 = (Ok run, c2)) ->
  outcome (app C sb (Some up)) w = Ok tt /\
  cards_shown (emitted (app C sb (Some up)) w) = card_text sb <$> data run /\
  files (final (app C sb (Some up)) w) = delete (temp_path up) (files w).
Proof.
  intros Hprov E Hitems Hres Hty Hex.
  destruct (rule_type_has_agent _ _ _ _ Hprov Hty) as [agent Hagent].
  specialize (Hex _ Hagent).
  destruct (provision_loop_calls agent_definitions ∅ w)
    as (evs & Htr & Hfs & Hall & _).
  fold (provision C) in Htr, Hfs. rewrite Hprov in Htr, Hfs.
  cbn in Htr, Hfs.
  pose proof (app_after_provision sb (Some up) w _ _ Hprov) as Happ.
  change (app C sb (Some up) w = handle_upload C sb agents up (served w1))
    in Happ.
  pose proof (handle_upload_extracted sb agents up (served w1)
                _ _ _ _ _ _ _ _ E Hitems Hres Hagent Hex) as Hrun.
  rewrite Hrun in Happ.
  unfold outcome, final.
  erewrite emitted_app
    by (rewrite Happ; cbn; rewrite Htr, <- !app_assoc; reflexivity).
  rewrite Happ. cbn. split; [done|]. split.
  - destruct (agent_calls_only _ Hall) as (_ & _ & Hcards).
    rewrite cards_shown_app, Hcards. cbn.
    rewrite cards_shown_app, cards_shown_entries. cbn.
    by rewrite app_nil_r.
  - unfold staged. cbn. by rewrite delete_insert_eq, Hfs.
Qed.

Lemma upload_is_extracted_end_to_end_witness :
  provision invoice_cloud (Account.start invoice_cloud Account.fresh) =
    (Ok fresh_agents,
     (provision invoice_cloud (Account.start invoice_cloud Account.fresh)).2) /\
  cards_shown
    (emitted (app invoice_cloud plain_str (Some scan))
             (Account.start invoice_cloud Account.fresh)) =
    [ ("Invoice Number", "INV-001"); ("Date", "2024-01-01");
      ("Total", "<object>"); ("Items", "pen<br>2<br>ink") ].
Proof.
  assert (E : provision invoice_cloud
                (Account.start invoice_cloud Account.fresh) =
              (Ok fresh_agents,
               (provision invoice_cloud
                  (Account.start invoice_cloud Account.fresh)).2))
    by (vm_compute; reflexivity).
  split; [exact E|].
  apply (upload_is_extracted_end_to_end invoice_cloud plain_str scan
           (Account.start invoice_cloud Account.fresh) fresh_agents _
           (mkResults [mkItem (Some invoice)])
           (cloud (provision invoice_cloud
                     (Account.start invoice_cloud Account.fresh)).2)
           (mkItem (Some invoice)) [] invoice (mkRun invoice_data)
           (cloud (provision invoice_cloud
                     (Account.start invoice_cloud Account.fresh)).2) E);
    [reflexivity | reflexivity | reflexivity | find_event
    | intros agent _; reflexivity].
Defined.

(** ** Names and titles *)

Lemma append_length (a b : string) :
  String.length (a +:+ b) = (String.length a + String.length b)%nat.
Proof.
  induction a as [|x a IH]; [done|].
  change (S (String.length (a +:+ b)) =
          S (String.length a + String.length b)). by rewrite IH.
Qed.

Lemma append_inj_r (a b c : string) : a +:+ c = b +:+ c -> a = b.
Proof.
  revert b. induction a as [|x a IH]; intros [|y b] Heq.
  - done.
  - apply (f_equal String.length) in Heq.
    change (String.length c = S (String.length (b +:+ c))) in Heq.
    rewrite append_length in Heq. lia.
  - apply (f_equal String.length) in Heq.
    change (S (String.length (a +:+ c)) = String.length c) in Heq.
    rewrite append_length in Heq. lia.
  - change (String x (a +:+ c) = String y (b +:+ c)) in Heq.
    injection Heq as -> Heq. f_equal. by apply IH.
Qed.

(** X10: the two names the script derives are injective: two document
    types with the same agent key are the same type, so no two types are
    routed to one agent; two uploads with the same temporary path have
    the same file name. *)
Theorem derived_names_are_injective :
  (forall t1 t2, agent_key_of t1 = agent_key_of t2 -> t1 = t2) /\
  (forall u1 u2, temp_path u1 = temp_path u2 -> name u1 = name u2).
Proof.
  split.
  - intros t1 t2. apply append_inj_r.
  - intros u1 u2. unfold temp_path. apply String.app_inj.
Qed.

(** *** The title of a card, once more *)

Lemma alpha_of_cased (cased : bool) (c : ascii) :
  Str.is_alpha (if Str.is_alpha c then
                  if cased then Str.to_lower c else Str.to_upper c
                else c) = Str.is_alpha c.
Proof.
  destruct cased, c as [[] [] [] [] [] [] [] []]; reflexivity.
Qed.

Lemma cased_twice (cased : bool) (c : ascii) :
  Str.is_alpha c = true ->
  (if cased then Str.to_lower (if cased then Str.to_lower c else Str.to_upper c)
   else Str.to_upper (if cased then Str.to_lower c else Str.to_upper c)) =
  (if cased then Str.to_lower c else Str.to_upper c).
Proof.
  destruct cased, c as [[] [] [] [] [] [] [] []]; vm_compute; congruence.
Qed.

Lemma title_from_idempotent (s : string) (cased : bool) :
  Str.title_from cased (Str.title_from cased s) = Str.title_from cased s.
Proof.
  revert cased. induction s as [|c s IH]; intros cased; [done|].
  rewrite !title_from_cons, alpha_of_cased, IH. f_equal.
  destruct (Str.is_alpha c) eqn:Hc; [|done]. by apply cased_twice.
Qed.

Lemma cased_is_no_underscore (cased : bool) (c : ascii) :
  Ascii.eqb (if Str.is_alpha c then
               if cased then Str.to_lower c else Str.to_upper c
             else c) "_" = Ascii.eqb c "_".
Proof.
  destruct cased, c as [[] [] [] [] [] [] [] []]; reflexivity.
Qed.

Lemma spaced_title_keeps_no_underscore (s : string) (cased : bool) :
  Str.replace "_" " " (Str.title_from cased (Str.replace "_" " " s)) =
    Str.title_from cased (Str.replace "_" " " s).
Proof.
  revert cased. induction s as [|c s IH]; intros cased; [done|].
  cbn [Str.replace]. rewrite title_from_cons. cbn [Str.replace].
  rewrite IH, cased_is_no_underscore. f_equal.
  by destruct (Ascii.eqb_spec c "_") as [->|Hne];
    [|apply Ascii.eqb_neq in Hne; rewrite Hne].
Qed.

Lemma cased_stays_ascii (cased : bool) (c : ascii) :
  (nat_of_ascii (if Str.is_alpha c then
                   if cased then Str.to_lower c else Str.to_upper c
                 else c) <? 128)%nat = (nat_of_ascii c <? 128)%nat.
Proof.
  destruct cased, c as [[] [] [] [] [] [] [] []]; reflexivity.
Qed.

Lemma is_ascii_title_from (s : string) (cased : bool) :
  Str.is_ascii (Str.title_from cased s) = Str.is_ascii s.
Proof.
  revert cased. induction s as [|c s IH]; intros cased; [done|].
  rewrite title_from_cons. cbn [Str.is_ascii].
  by rewrite IH, cased_stays_ascii.
Qed.

(** X11: formatting a field name of ASCII characters is stable: the
    title of its card holds no underscore (replacing underscores in it
    changes nothing), and formatting the title again gives the same
    title. *)
Theorem card_title_is_stable (sb : Python) (key : string) :
  Str.is_ascii key = true ->
  Str.replace "_" " " (str_title sb (Str.replace "_" " " key)) =
    str_title sb (Str.replace "_" " " key) /\
  str_title sb
    (Str.replace "_" " " (str_title sb (Str.replace "_" " " key))) =
    str_title sb (Str.replace "_" " " key).
Proof.
  intros Hascii.
  rewrite (str_title_of_replaced sb "_" " " key eq_refl eq_refl Hascii).
  rewrite spaced_title_keeps_no_underscore. split; [done|].
  unfold str_title.
  rewrite is_ascii_title_from, (is_ascii_replace "_" " " key eq_refl eq_refl),
    Hascii.
  apply title_from_idempotent.
Qed.

Lemma card_title_is_stable_witness :
  Str.is_ascii "invoice_number" = true /\
  str_title plain_str (Str.replace "_" " " "Invoice Number") =
    "Invoice Number".
Proof.
  split; [reflexivity|].
  exact (proj2 (card_title_is_stable plain_str "invoice_number" eq_refl)).
Defined.

(** *** The data heading *)

Lemma replace_hyphen_alpha (c : ascii) :
  Str.is_alpha (if Ascii.eqb c "-" then " "%char else c) = Str.is_alpha c.
Proof. destruct (Ascii.eqb_spec c "-") as [->|]; reflexivity. Qed.

Lemma hyphen_title_char (c : ascii) (cased : bool) :
  (let c' := if Ascii.eqb c "-" then " "%char else c in
   if Str.is_alpha c then
     if cased then Str.to_lower c' else Str.to_upper c'
   else c') = heading_char cased c.
Proof.
  unfold heading_char. destruct (Ascii.eqb_spec c "-") as [->|]; reflexivity.
Qed.

Lemma hyphen_title_get (s : string) :
  forall (cased : bool) (j : nat) (c : ascii),
    String.get j s = Some c ->
    String.get j (Str.title_from cased (Str.replace "-" " " s)) =
      Some (heading_char
              (match j with O => cased | S _ => after_letter s j end) c).
Proof.
  induction s as [|a s IH]; intros cased j c Hget; [by destruct j|].
  cbn [Str.replace]. rewrite title_from_cons, replace_hyphen_alpha.
  destruct j as [|k].
  - cbn in Hget. injection Hget as <-. cbn [String.get].
    f_equal. apply hyphen_title_char.
  - cbn [String.get] in *. rewrite (IH _ _ _ Hget). f_equal.
    destruct k as [|k']; reflexivity.
Qed.

Lemma hyphen_title_length (s : string) (cased : bool) :
  String.length (Str.title_from cased (Str.replace "-" " " s)) =
    String.length s.
Proof.
  revert cased. induction s as [|a s IH]; intros cased; [done|].
  cbn [Str.replace]. rewrite title_from_cons. cbn. by rewrite IH.
Qed.

(** X12: the heading above the cards is the type label between the
    fixed prefix and the word "Data", the label being put through
    [replace('-', ' ')] and [title()]. For a label of ASCII characters:
    the formatted label has the length of the label and, character by
    character, a hyphen shows as a space, a letter is upper case when
    the character before it is not a letter and lower case otherwise,
    anything else is kept. *)
Theorem data_heading_is_title_cased_type (sb : Python) (doc_type : string) :
  Str.is_ascii doc_type = true ->
  exists label,
    data_heading sb doc_type = "### 🗂 " +:+ label +:+ " Data" /\
    String.length label = String.length doc_type /\
    (forall j c, String.get j doc_type = Some c ->
       String.get j label = Some (heading_char (after_letter doc_type j) c)).
Proof.
  intros Hascii. exists (Str.title_from false (Str.replace "-" " " doc_type)).
  split; [|split; [apply hyphen_title_length|]].
  - unfold data_heading.
    by rewrite (str_title_of_replaced sb "-" " " doc_type eq_refl eq_refl
                  Hascii).
  - intros j c Hget.
    rewrite (hyphen_title_get _ _ _ _ Hget). by destruct j.
Qed.

Lemma data_heading_is_title_cased_type_witness :
  Str.is_ascii "bank-statement" = true /\
  exists label,
    data_heading plain_str "bank-statement" =
      "### 🗂 " +:+ label +:+ " Data" /\
    String.length label = String.length "bank-statement" /\
    (forall j c, String.get j "bank-statement" = Some c ->
       String.get j label =
         Some (heading_char (after_letter "bank-statement" j) c)).
Proof.
  split; [reflexivity|].
  exact (data_heading_is_title_cased_type plain_str "bank-statement" eq_refl).
Defined.

(** *** Fields that are not lists *)

(** X13: the renderer shows exactly one card per field, and the card of
    a field whose value is not a list carries the [str] form of the
    value as it is: a string is shown verbatim. *)
Theorem scalar_field_is_shown_as_its_text
    (C : Cloud) (sb : Python) (entries : Dict) (w : World C)
    (i : nat) (key : string) (value : Value) :
  entries !! i = Some (key, value) ->
  (forall vs, value <> VList vs) ->
  length (cards_shown (emitted (render_cards C sb entries) w)) =
    length entries /\
  exists title,
    cards_shown (emitted (render_cards C sb entries) w) !! i =
      Some (title, str sb value) /\
    (forall s, value = VStr s -> str sb value = s).
Proof.
  intros Hi Hscalar. destruct (render_cards_shows sb entries w) as [_ ->].
  rewrite length_fmap. split; [done|].
  rewrite list_lookup_fmap, Hi. eexists. split.
  - unfold card_text. cbn. destruct value as [| | | | |vs|]; try reflexivity.
    by destruct (Hscalar vs).
  - by intros s ->.
Qed.

Lemma scalar_field_is_shown_as_its_text_witness :
  invoice_data !! 1%nat = Some ("date", VStr "2024-01-01") /\
  exists title,
    cards_shown
      (emitted (render_cards invoice_cloud plain_str invoice_data)
               (Account.start invoice_cloud Account.fresh)) !! 1%nat =
      Some (title, "2024-01-01") /\
    (forall s, VStr "2024-01-01" = VStr s ->
       str plain_str (VStr "2024-01-01") = s).
Proof.
  split; [reflexivity|].
  apply (scalar_field_is_shown_as_its_text invoice_cloud plain_str
           invoice_data (Account.start invoice_cloud Account.fresh)
           1 "date" (VStr "2024-01-01") eq_refl).
  discriminate.
Defined.

(** ** Provisioning agents that exist *)

Lemma provision_loop_all_fetched {C : Cloud} defs :
  (forall agent_name schema, (agent_name, schema) ∈ defs ->
     forall c, exists h c', get_agent C agent_name c = (Ok h, c')) ->
  forall agents (w : World C),
    exists agents' w',
      provision_loop C defs agents w = (Ok agents', w') /\
      trace w' = trace w ++ (EvGetAgent <$> defs.*1).
Proof.
  induction defs as [|[n s] rest IH]; intros Hfetch agents w.
  - exists agents, w. split; [done|]. cbn. by rewrite app_nil_r.
  - destruct (Hfetch n s (list_elem_of_here _ _) (cloud w)) as (h & c1 & E).
    destruct (IH (fun n' s' Hin => Hfetch n' s' (list_elem_of_further _ _ _ Hin))
                 (<[n := h]> agents)
                 (mkWorld c1 (files w) (trace w ++ [EvGetAgent n])))
      as (agents' & w' & Hrun & Htr).
    exists agents', w'. split.
    + cbn [provision_loop].
      by rewrite (bind_ok _ _ _ _ _ (ensure_agent_fetched _ _ _ _ _ _ E)).
    + rewrite Htr. cbn. by rewrite <- app_assoc.
Qed.

Lemma create_calls_of_fetches {H} (names : list string) :
  create_calls (@EvGetAgent H <$> names) = [].
Proof. induction names as [|n names IH]; [done|]. by cbn. Qed.

(** X14: on an account where the fetch of every registered name
    answers, provisioning always completes, and it does so with the ten
    fetches alone: create is never called. *)
Theorem provisioning_of_existing_agents_only_fetches
    (C : Cloud) (w : World C) :
  (forall agent_name schema, (agent_name, schema) ∈ agent_definitions ->
     forall c, exists h c', get_agent C agent_name c = (Ok h, c')) ->
  (exists agents, outcome (provision C) w = Ok agents) /\
  emitted (provision C) w = EvGetAgent <$> agent_definitions.*1 /\
  create_calls (emitted (provision C) w) = [].
Proof.
  intros Hfetch.
  destruct (provision_loop_all_fetched agent_definitions Hfetch ∅ w)
    as (agents & w' & Hrun & Htr).
  fold (provision C) in Hrun.
  assert (Hev : emitted (provision C) w = EvGetAgent <$> agent_definitions.*1).
  { apply emitted_app. by rewrite Hrun. }
  rewrite Hev. unfold outcome. rewrite Hrun.
  split; [by exists agents|]. split; [done|]. apply create_calls_of_fetches.
Qed.

Lemma provisioning_of_existing_agents_only_fetches_witness :
  (forall agent_name schema, (agent_name, schema) ∈ agent_definitions ->
     forall c, exists h c',
       get_agent steady_cloud agent_name c = (Ok h, c')) /\
  create_calls (emitted (provision steady_cloud) steady_world) = [].
Proof.
  assert (Hfetch : forall agent_name schema,
            (agent_name, schema) ∈ agent_definitions ->
            forall c, exists h c',
              get_agent steady_cloud agent_name c = (Ok h, c')).
  { intros agent_name schema _ c. by exists agent_name, c. }
  split; [exact Hfetch|].
  apply (provisioning_of_existing_agents_only_fetches steady_cloud
           steady_world Hfetch).
Defined.

(** ** The temporary file over a whole request *)




